(** * DeeperWin shared optimisation: parameter partitioning, device
    replication, scheduling and the optimisation loop.

    A shallow embedding of [deeperwin/utils.py] and
    [deeperwin/process_molecules_shared.py].  Python exceptions are values of
    [exn]; a function that can raise returns a [result]. *)

From Stdlib Require Import ZArith Lia List Ascii String.
From Stdlib Require Import Floats.
From stdpp Require Import base option list gmap strings fin_maps pretty.

Set Warnings "-register-all".

Local Open Scope string_scope.
Local Open Scope Z_scope.

(** ** Exceptions and the error monad *)

Inductive exn : Type :=
  | TypeError (msg : string)
  | ValueError (msg : string)
  | KeyError (key : string)
  | IndexError (msg : string)
  | NameError (name : string)
  | ZeroDivisionError (msg : string)
  | AttributeError (msg : string)
  | ReError (pattern : string)
  | CollaboratorError (who : string).

Inductive result (A : Type) : Type :=
  | Ok (a : A)
  | Raise (e : exn).
Arguments Ok {A} a.
Arguments Raise {A} e.

Definition rbind {A B : Type} (r : result A) (k : A → result B) : result B :=
  match r with
  | Ok a => k a
  | Raise e => Raise e
  end.

Notation "'do' x <- r ; k" := (rbind r (fun x => k))
  (at level 10, x pattern, r at level 100, k at level 200).

Definition rmap {A B : Type} (f : A → B) (r : result A) : result B :=
  do a <- r; Ok (f a).

(** [str(e)] *)
Definition exn_message (e : exn) : string :=
  match e with
  | TypeError msg | ValueError msg | IndexError msg | ZeroDivisionError msg
  | AttributeError msg => msg
  | KeyError key => key
  | NameError name => name
  | ReError pattern => pattern
  | CollaboratorError who => who
  end.

(** [needle in text] on strings. *)
Fixpoint occurs_in (needle text : string) : bool :=
  match text with
  | EmptyString => String.eqb needle EmptyString
  | String _ rest => String.prefix needle text || occurs_in needle rest
  end.

Fixpoint rmapM {A B : Type} (f : A → result B) (l : list A) : result (list B) :=
  match l with
  | [] => Ok []
  | a :: l' => do b <- f a; do bs <- rmapM f l'; Ok (b :: bs)
  end.

(** ** Parameter partitioner ([utils.py], "Shared optimization / split model") *)

Module Params.

(** A Haiku parameter structure: module name -> parameter name -> leaf. *)
Abbreviation hk_params V := (gmap string (gmap string V)).

(** ["|".join(module_names)] *)
Fixpoint join (sep : string) (l : list string) : string :=
  match l with
  | [] => ""
  | [s] => s
  | s :: l' => s ++ sep ++ join sep l'
  end.

Section Partitioner.
(** A parameter leaf (an array); the partitioner only moves leaves around. *)
Context {V : Type}.

Abbreviation params := (hk_params V).

(** [structure[module_name][name]], when both keys are present. *)
Definition leaf (structure : params) (module_name name : string) : option V :=
  structure !! module_name ≫= λ module_state, module_state !! name.

(** [hk.data_structures.traverse]: every (module name, name, value) of the
    structure.  Haiku yields them in sorted key order; a structure has each
    key once, so the order has no bearing on the dicts built from them. *)
Definition traverse (structure : params) : list (string * string * V) :=
  '(module_name, module_state) ← map_to_list structure;
  '(name, value) ← map_to_list module_state;
  [(module_name, name, value)].

(** [out[module_name][name] = value] on a [collections.defaultdict(dict)]. *)
Definition insert_leaf (out : params) (module_name name : string) (value : V)
  : params :=
  <[module_name := <[name := value]> (default ∅ (out !! module_name))]> out.

(** [for module_name, name, value in leaves: out[module_name][name] = value] *)
Definition write_leaves (leaves : list (string * string * V)) (out : params)
  : params :=
  fold_left (λ (out : params) '(module_name, name, value),
               insert_leaf out module_name name value) leaves out.

(** [hk.data_structures.partition(predicate, structure)]: Haiku walks the
    leaves of [traverse structure] and writes each one into the first dict
    when the predicate holds for it, into the second otherwise. *)
Definition hk_partition (predicate : string → string → V → bool)
    (structure : params) : params * params :=
  fold_left
    (λ (out : params * params) '(module_name, name, value),
       if predicate module_name name value
       then (insert_leaf out.1 module_name name value, out.2)
       else (out.1, insert_leaf out.2 module_name name value))
    (traverse structure) (∅, ∅).

(** [hk.data_structures.merge] of several structures: every leaf of every
    structure is written into one dict, in argument order.  As Haiku
    documents it, when the structures are not disjoint the output holds, for
    each path, the value of the last structure; called as [merge_params]
    calls it, it makes no check for a key that is already there. *)
Definition hk_merge (structures : list params) : params :=
  fold_left (λ (out : params) (structure : params),
               write_leaves (traverse structure) out)
            structures ∅.

(** Each key of [l] has one value, as in the traversal of a dict. *)
Definition functional (l : list (string * string * V)) : Prop :=
  ∀ m n v v', (m, n, v) ∈ l → (m, n, v') ∈ l → v = v'.

(** The leaf [x] is one that [predicate] sends to the given side. *)
Definition goes_to (predicate : string → string → V → bool) (side : bool)
    (x : string * string * V) : Prop :=
  predicate x.1.1 x.1.2 x.2 = side.

#[export] Instance goes_to_dec predicate side x :
  Decision (goes_to predicate side x).
Proof. unfold goes_to. apply _. Defined.

(** The two operations of Python's [re] module that the filter uses. *)
Context {regex : Type}.
Variable re_compile : string → result regex.
Variable re_findall : regex → string → list string.

Definition get_params_filter_func (module_names : list string)
  : result (string → string → V → bool) :=
  do regex <- re_compile ("(" ++ join "|" module_names ++ ")");
  Ok (λ module_name name (v : V),
        bool_decide (0 < length (re_findall regex (module_name ++ "/" ++ name)))%nat).

Definition split_params (structure : params) (module_names : list string)
  : result (params * params) :=
  do filter_func <- get_params_filter_func module_names;
  Ok (hk_partition filter_func structure).

Definition merge_params (params_old params_new : params) : result params :=
  Ok (hk_merge [params_old; params_new]).

(** Haiku builds a module's dict when the module creates its first
    parameter, so a parameter structure has no module without leaves. *)
Definition no_empty_module (structure : params) : Prop :=
  map_Forall (λ _ (module_state : gmap string V), module_state ≠ ∅) structure.

(** Two partitions share a key. *)
Definition share_key (a b : params) : Prop :=
  ∃ module_name name, is_Some (leaf a module_name name)
                      ∧ is_Some (leaf b module_name name).
End Partitioner.

Section Counting.
Context {V : Type}.

(** [np.size(x)]: the number of elements of a leaf. *)
Variable size : V → nat.

(** [hk.data_structures.tree_size]: the sizes of the leaves, added up. *)
Definition hk_tree_size (structure : hk_params V) : nat :=
  sum_list_with (λ x : string * string * V, size x.2) (traverse structure).

Definition get_number_of_params (params : hk_params V) : nat :=
  hk_tree_size params.
End Counting.

End Params.

(** ** Device replication layer ([utils.py], "Parallelization")

    One process, whose local devices are all the devices: the device whose
    axis index is 0 is the root. *)

Module Devices.

(** The element type of an array: its zero and its addition, and when two
    elements count as equal ([==], with NaN matching NaN for floats). *)
Class Dtype (E : Type) := {
  zero : E;
  add : E → E → E;
  same : E → E → Prop;
}.

(** What the replication layer needs of the arithmetic: [same] is an
    equivalence that adding zero respects. *)
Class DtypeLaws (E : Type) `{Dtype E} : Prop := {
  same_refl : ∀ x : E, same x x;
  same_trans : ∀ x y z : E, same x y → same y z → same x z;
  add_zero_same : ∀ x : E, same (add x zero) x;
}.

(** A pytree: leaves held in nested containers. *)
Inductive pytree (A : Type) : Type :=
  | Leaf (a : A)
  | Node (children : list (pytree A)).
Arguments Leaf {A} a.
Arguments Node {A} children.

(** [jax.tree_util.tree_map] *)
Fixpoint tree_map {A B : Type} (f : A → B) (t : pytree A) : pytree B :=
  match t with
  | Leaf a => Leaf (f a)
  | Node children => Node (List.map (tree_map f) children)
  end.

Section Replication.
Context {E : Type} `{Dtype E}.

(** An array, as the list of its elements; an array with a leading device
    axis, as the list of its slices along that axis. *)
Definition array : Type := list E.
Definition sharded : Type := list array.


Definition zeros_like (x : array) : array := List.map (λ _, zero) x.

Definition add_array (x y : array) : array := zip_with add x y.






End Replication.


(** Floats: numerically equal, or both NaN. *)
Definition same_float (x y : float) : Prop :=
  PrimFloat.eqb x y = true ∨ (PrimFloat.is_nan x = true ∧ PrimFloat.is_nan y = true).

#[export] Instance float_dtype : Dtype float :=
  {| zero := 0%float; add := PrimFloat.add; same := same_float |}.

#[export] Instance Z_dtype : Dtype Z :=
  {| zero := 0%Z; add := Z.add; same := eq |}.

(** *** Gathering ([_pad_data], [is_equal_across_devices],
    [merge_from_devices]) *)

Section Gathering.
Context {E : Type} `{Dtype E}.

(** The leaves of a pytree, left to right ([jax.tree_leaves]). *)
Fixpoint tree_leaves {A : Type} (t : pytree A) : list A :=
  match t with
  | Leaf a => [a]
  | Node children => List.concat (List.map tree_leaves children)
  end.

(** The body of [_pad_data] before the collective, on the device whose
    [jax.lax.axis_index] is [axis_index]: zeros for every device, and the
    device's own array at its index. *)
Definition pad_local (device_count axis_index : nat) (x : array) : sharded :=
  <[axis_index := x]> (repeat (zeros_like x) device_count).

(** [jax.lax.psum] of arrays with a leading axis: slice by slice, in
    device order. *)
Definition psum_sharded (per_device : list sharded) : sharded :=
  match per_device with
  | [] => []
  | x :: rest => fold_left (zip_with add_array) rest x
  end.

(** [_pad_data], a [jax.pmap]: device [d] works on slice [d] of [x]; the
    results are stacked along the device axis. *)
Definition _pad_data (device_count : nat) (x : sharded) : list sharded :=
  let full_data := imap (pad_local device_count) x in
  List.map (λ _, psum_sharded full_data) x.

(** [is_equal_across_devices]; [allclose] stands for [np.allclose]. *)
Definition is_equal_across_devices (allclose : sharded → sharded → bool)
    (device_count : nat) (data : pytree sharded) : bool :=
  let full_data := tree_leaves (tree_map (_pad_data device_count) data) in
  forallb (λ x, forallb (λ i, allclose (nth i x []) (nth 0 x []))
                        (seq 1 (device_count - 1)))
          full_data.

(** [merge_from_devices]: [None] for [None]; otherwise what device 0 holds
    after [_pad_data], with its first two axes merged. *)
Definition merge_from_devices (device_count : nat) (x : option sharded)
  : option array :=
  match x with
  | None => None
  | Some x =>
      let full_data := _pad_data device_count x in
      Some (List.concat (nth 0 full_data []))
  end.
End Gathering.

End Devices.
(** ** Scheduling and the optimisation loop ([process_molecules_shared.py]) *)

Module Shared.
Import Params.

(** A value kept in [current_metrics]: a scalar or an array of floats. *)
Inductive metric : Type :=
  | Scalar (x : float)
  | Array (xs : list float).

Record SharedOptimizationConfig : Type := {
  shared_modules : list string;
  scheduling_method : string;
  max_age : Z;
}.

Record OptimizationConfig : Type := {
  n_epochs : Z;
  n_walkers : Z;
  shared_optimization : SharedOptimizationConfig;
}.

(** [stats] as [optimizer.step] returns it: the two arrays under
    [stats["aux"]], and the rest. *)
Record step_stats (opt_stats_t : Type) : Type := {
  E_loc_unclipped : list float;
  E_loc_clipped : list float;
  other_stats : opt_stats_t;
}.
Arguments E_loc_unclipped {opt_stats_t} s.
Arguments E_loc_clipped {opt_stats_t} s.
Arguments other_stats {opt_stats_t} s.

(** The collaborators of the loop: the model, the sampler, the optimiser,
    JAX's device layer and Python's [re].  A call that can fail returns a
    [result]. *)
Class Externals : Type := {
  leaf_t : Type;
  physical_t : Type;
  fixed_t : Type;
  mcmc_t : Type;
  clip_t : Type;
  opt_state_t : Type;
  opt_stats_t : Type;
  loggers_t : Type;
  regex_t : Type;
  re_compile : string → result regex_t;
  re_findall : regex_t → string → list string;
  (** [jax_enable_x64]: integer arrays have 64 bits, else 32. *)
  jax_enable_x64 : bool;
  device_count : nat;
  E_ref : physical_t → option float;
  (** [MCMCState.resize_or_init(state, n_walkers, physical, n_devices)] *)
  resize_or_init : option mcmc_t → Z → physical_t → nat → result mcmc_t;
  init_clipping_state : clip_t;
  (** Python truth value of a clipping state and of an optimiser state. *)
  clip_truthy : clip_t → bool;
  opt_state_truthy : opt_state_t → bool;
  (** [replicate_across_devices] on one array leaf, on the fixed parameters
      and on the clipping state ([Devices] has it on arrays given by their
      elements). *)
  replicate_leaf : leaf_t → leaf_t;
  replicate_fixed : fixed_t → fixed_t;
  replicate_clip : clip_t → clip_t;
  (** [mcmc.run_burn_in(log_psi_squared, state, params, fixed_params)] *)
  run_burn_in : mcmc_t → hk_params leaf_t → fixed_t → result mcmc_t;
  (** [state.log_psi_sqr = log_psi_squared_pmapped(params, batch)] *)
  eval_log_psi_sqr : mcmc_t → hk_params leaf_t → fixed_t → result mcmc_t;
  (** [mcmc.run_inter_steps(log_psi_squared, state, params, fixed_params)] *)
  run_inter_steps : mcmc_t → hk_params leaf_t → fixed_t → result mcmc_t;
  (** [optimizer.init(params, rng, batch, func_state)], the batch given by
      the sampler state and the fixed parameters. *)
  optimizer_init :
    hk_params leaf_t → mcmc_t → fixed_t → option clip_t → result opt_state_t;
  (** [optimizer.step(params, opt_state, rng=None, batch=..., func_state=...)] *)
  optimizer_step :
    hk_params leaf_t → opt_state_t → mcmc_t → fixed_t → option clip_t →
    result (hk_params leaf_t * opt_state_t * option clip_t
            * step_stats opt_stats_t);
  (** [get_from_devices(stats)] *)
  stats_from_devices : step_stats opt_stats_t → step_stats opt_stats_t;
  (** [build_log_psi_squared(config.model, p)]: the trainable and the fixed
      parameters (the two functions it also returns stay implicit). *)
  build_log_psi_squared : physical_t → result (hk_params leaf_t * fixed_t);
  (** The [LoggerCollection] of target [i], set up and started. *)
  build_loggers : nat → result loggers_t;
}.

(** One target.  Each field holds what the attribute evaluates to;
    [current_metrics] is the class attribute's empty dict until the loop
    first assigns it. *)
Record WaveFunctionData `{Externals} : Type := {
  physical : physical_t;
  fixed_params : fixed_t;
  unique_trainable_params : hk_params leaf_t;
  mcmc_state : option mcmc_t;
  clipping_params : option clip_t;
  loggers : loggers_t;
  current_metrics : gmap string metric;
  n_opt_epochs : Z;
  last_epoch_optimized : Z;
}.

(** *** Integer and float helpers of Python, NumPy and JAX *)

(** [len(l)] *)
Definition len {A : Type} (l : list A) : Z := Z.of_nat (length l).

(** [a % b] on Python integers. *)
Definition py_mod (a b : Z) : result Z :=
  if b =? 0 then Raise (ZeroDivisionError "integer division or modulo by zero")
  else Ok (a mod b).

(** [l[i]] on a Python list: a negative index counts from the end. *)
Definition py_getitem {A : Type} (l : list A) (i : Z) : result A :=
  let j := if i <? 0 then i + len l else i in
  if (0 <=? j) && (j <? len l)
  then match l !! Z.to_nat j with
       | Some a => Ok a
       | None => Raise (IndexError "list index out of range")
       end
  else Raise (IndexError "list index out of range").

(** [d[key]] on a dict. *)
Definition dict_getitem {A : Type} (d : gmap string A) (key : string) : result A :=
  match d !! key with
  | Some a => Ok a
  | None => Raise (KeyError key)
  end.

(** Two's-complement wrap-around of a JAX integer array element. *)
Definition int_bits (x64 : bool) : Z := if x64 then 64 else 32.
Definition wrap (bits : Z) (z : Z) : Z :=
  (z + 2 ^ (bits - 1)) mod 2 ^ bits - 2 ^ (bits - 1).

(** [jnp.argmax] on integers: the first index of the largest element. *)
Fixpoint argmax_int_from (mp : Z) (max_ind i : nat) (l : list Z) : nat :=
  match l with
  | [] => max_ind
  | x :: l' =>
      if mp <? x then argmax_int_from x i (S i) l'
      else argmax_int_from mp max_ind (S i) l'
  end.

Definition argmax_int (l : list Z) : result nat :=
  match l with
  | [] => Raise (ValueError "attempt to get argmax of an empty sequence")
  | x :: l' => Ok (argmax_int_from x 0 1 l')
  end.

(** [np.argmax] on floats, as NumPy's loop runs: a later element replaces
    the maximum unless it is [<=] it, and a NaN ends the search. *)
Fixpoint argmax_float_from (mp : float) (max_ind i : nat) (l : list float) : nat :=
  match l with
  | [] => max_ind
  | x :: l' =>
      if negb (PrimFloat.leb x mp)
      then if PrimFloat.is_nan x then i else argmax_float_from x i (S i) l'
      else argmax_float_from mp max_ind (S i) l'
  end.

Definition argmax_float (l : list float) : result nat :=
  match l with
  | [] => Raise (ValueError "attempt to get argmax of an empty sequence")
  | x :: l' =>
      if PrimFloat.is_nan x then Ok 0%nat else Ok (argmax_float_from x 0 1 l')
  end.

(** The shape of a metric ([None] for a scalar) and its elements. *)
Definition metric_shape (m : metric) : option nat :=
  match m with
  | Scalar _ => None
  | Array xs => Some (length xs)
  end.

Definition metric_elements (m : metric) : list float :=
  match m with
  | Scalar x => [x]
  | Array xs => xs
  end.

(** [np.argmax(values)] on a list of metrics: NumPy stacks them, which
    needs one shape, and searches the flattened array. *)
Definition np_argmax (values : list metric) : result nat :=
  match values with
  | [] => Raise (ValueError "attempt to get argmax of an empty sequence")
  | v :: _ =>
      if forallb (λ v', bool_decide (metric_shape v' = metric_shape v)) values
      then argmax_float (concat (List.map metric_elements values))
      else Raise (ValueError "inhomogeneous shape")
  end.

(** [np.std] and [jnp.nanstd] (axis [None], [ddof] 0): the standard
    deviation of the elements, and of the elements that are not NaN. *)
Definition float_of_nat (n : nat) : float :=
  SF2Prim (binary_normalize prec emax (Z.of_nat n) 0 false).

Definition fsum (xs : list float) : float := fold_left PrimFloat.add xs 0%float.

Definition mean (xs : list float) : float :=
  PrimFloat.div (fsum xs) (float_of_nat (length xs)).

Definition std (xs : list float) : float :=
  let m := mean xs in
  PrimFloat.sqrt
    (mean (List.map (λ x, PrimFloat.mul (PrimFloat.sub x m) (PrimFloat.sub x m)) xs)).

Definition nanstd (xs : list float) : float :=
  std (List.filter (λ x, negb (PrimFloat.is_nan x)) xs).



(** *** The scheduling policy *)

Section Scheduling.
Context `{Externals}.

(** The age of a target: the epochs since it was last optimised. *)
Definition age (n_epoch : Z) (wf : WaveFunctionData) : Z :=
  n_epoch - last_epoch_optimized wf.

(** The counters fit the integer arrays: epochs are counted from 0, and a
    target was last optimised at an epoch that is not in the future. *)
Definition counters_fit (n_epoch : Z) (wfs : list WaveFunctionData) : Prop :=
  n_epoch < 2 ^ (int_bits jax_enable_x64 - 1)
  ∧ Forall (λ wf, 0 ≤ last_epoch_optimized wf ≤ n_epoch) wfs.

Definition get_index (n_epoch : Z) (wfs : list WaveFunctionData)
    (config : SharedOptimizationConfig) : result Z :=
  let method := scheduling_method config in
  if String.eqb method "round_robin" then
    py_mod n_epoch (len wfs)
  else if String.eqb method "stddev" then
    let bits := int_bits jax_enable_x64 in
    let wf_ages :=
      List.map (λ wf, wrap bits (n_epoch - wrap bits (last_epoch_optimized wf)))
               wfs in
    if n_epoch <? len wfs * 10 then
      py_mod n_epoch (len wfs)
    else if existsb (λ age, max_age config <? age) wf_ages then
      do index <- argmax_int wf_ages; Ok (Z.of_nat index)
    else
      do stddevs <- rmapM (λ wf, dict_getitem (current_metrics wf) "E_std") wfs;
      do index <- np_argmax stddevs;
      Ok (Z.of_nat index)
  else
    (* [raise ("...")]: a [str] is not an exception *)
    Raise (TypeError "exceptions must derive from BaseException").
End Scheduling.

(** *** The optimisation loop *)

Section Orchestrator.
Context `{Externals}.

(** One [log_step] call: the position in [wf_loggers] of the logger that
    receives it, and what it is given. *)
Record log_record : Type := {
  log_logger : nat;
  log_E_loc_unclipped : list float;
  log_E_loc_clipped : list float;
  log_E_ref : option float;
  log_mcmc_state : mcmc_t;
  log_opt_stats : step_stats opt_stats_t;
}.

(** What one epoch did: the target it selected, the parameter set it gave
    to the sampler and to [optimizer.step], and its [log_step] call. *)
Record epoch_record : Type := {
  ep_n_epoch : Z;
  ep_index : nat;
  ep_sampler_params : hk_params leaf_t;
  ep_step_params : hk_params leaf_t;
  ep_log : log_record;
}.

(** The local variables of [optimize_shared] once the loop runs; [i] is
    the variable the burn-in loop leaves behind. *)
Record loop_state : Type := {
  wfs : list WaveFunctionData;
  shared_params : hk_params leaf_t;
  params : hk_params leaf_t;
  i : nat;
  opt_state : opt_state_t;
  trace : list epoch_record;
}.

(** [replicate_across_devices] on a parameter structure: [tree_map] keeps
    the keys. *)
Definition replicate_params (p : hk_params leaf_t) : hk_params leaf_t :=
  fmap (M := gmap string) (fmap (M := gmap string) replicate_leaf) p.

(** [x or y] for an optional value with a truth value. *)
Definition py_or {A : Type} (truthy : A → bool) (x : option A) (y : A) : A :=
  match x with
  | Some a => if truthy a then a else y
  | None => y
  end.

(** The position in [l] that [l[i]] refers to. *)
Definition py_position {A : Type} (l : list A) (i : Z) : result nat :=
  let j := if i <? 0 then i + len l else i in
  if (0 <=? j) && (j <? len l) then Ok (Z.to_nat j)
  else Raise (IndexError "list index out of range").

(** An attribute that holds [None] has no attributes of its own. *)
Definition not_none {A : Type} (x : option A) : result A :=
  match x with
  | Some a => Ok a
  | None => Raise (AttributeError "'NoneType' object has no attribute")
  end.

(** The body of the burn-in loop. *)
Definition burn_in_wf (shared_params : hk_params leaf_t)
    (opt_config : OptimizationConfig) (wf : WaveFunctionData)
  : result (WaveFunctionData * hk_params leaf_t) :=
  do mcmc <- resize_or_init (mcmc_state wf) (n_walkers opt_config)
                            (physical wf) device_count;
  let clip := py_or clip_truthy (clipping_params wf) init_clipping_state in
  do params <- merge_params shared_params (unique_trainable_params wf);
  let params := replicate_params params in
  let fixed := replicate_fixed (fixed_params wf) in
  let clip := replicate_clip clip in
  do mcmc <- run_burn_in mcmc params fixed;
  Ok ({| physical := physical wf;
         fixed_params := fixed;
         unique_trainable_params := unique_trainable_params wf;
         mcmc_state := Some mcmc;
         clipping_params := Some clip;
         loggers := loggers wf;
         current_metrics := current_metrics wf;
         n_opt_epochs := n_opt_epochs wf;
         last_epoch_optimized := last_epoch_optimized wf |},
      params).

(** [for i, wf in enumerate(wfs)]: the targets after burn-in, and the [i]
    and [params] of the last pass ([None] when there was no pass). *)
Fixpoint burn_in (shared_params : hk_params leaf_t)
    (opt_config : OptimizationConfig) (i : nat) (wfs : list WaveFunctionData)
    (last : option (nat * hk_params leaf_t))
  : result (list WaveFunctionData * option (nat * hk_params leaf_t)) :=
  match wfs with
  | [] => Ok ([], last)
  | wf :: rest =>
      do (wf', params) <- burn_in_wf shared_params opt_config wf;
      do (rest', last') <-
        burn_in shared_params opt_config (S i) rest (Some (i, params));
      Ok (wf' :: rest', last')
  end.

(** The body of the epoch loop. *)
Definition epoch_step (opt_config : OptimizationConfig) (st : loop_state)
    (n_epoch : Z) : result loop_state :=
  do index_next <- get_index n_epoch (wfs st) (shared_optimization opt_config);
  do index <- py_position (wfs st) index_next;
  do wf <- py_getitem (wfs st) index_next;
  do params <- merge_params (params st) (unique_trainable_params wf);
  do mcmc <- not_none (mcmc_state wf);
  do mcmc <- eval_log_psi_sqr mcmc params (fixed_params wf);
  do mcmc <- run_inter_steps mcmc params (fixed_params wf);
  do (params', opt_state', clip', stats) <-
    optimizer_step params (opt_state st) mcmc (fixed_params wf)
                   (clipping_params wf);
  do (shared_params', unique') <-
    split_params re_compile re_findall params'
                 (shared_modules (shared_optimization opt_config));
  (* [wf_loggers[i]], a list as long as [wfs] *)
  do _ <- py_getitem (wfs st) (Z.of_nat (i st));
  let log := {| log_logger := i st;
                log_E_loc_unclipped := E_loc_unclipped stats;
                log_E_loc_clipped := E_loc_clipped stats;
                log_E_ref := E_ref (physical wf);
                log_mcmc_state := mcmc;
                log_opt_stats := stats_from_devices stats |} in
  let wf' := {| physical := physical wf;
                fixed_params := fixed_params wf;
                unique_trainable_params := unique';
                mcmc_state := Some mcmc;
                clipping_params := clip';
                loggers := loggers wf;
                current_metrics :=
                  {[ "E_mean" := Array (E_loc_clipped stats);
                     "E_std" := Scalar (nanstd (E_loc_clipped stats)) ]};
                n_opt_epochs := n_opt_epochs wf + 1;
                last_epoch_optimized := n_epoch |} in
  Ok {| wfs := <[index := wf']> (wfs st);
        shared_params := shared_params';
        params := params';
        i := i st;
        opt_state := opt_state';
        trace := trace st ++ [ {| ep_n_epoch := n_epoch;
                                  ep_index := index;
                                  ep_sampler_params := params;
                                  ep_step_params := params;
                                  ep_log := log |} ] |}.

(** [for n_epoch in epochs] *)
Fixpoint epoch_loop (opt_config : OptimizationConfig) (st : loop_state)
    (epochs : list Z) : result loop_state :=
  match epochs with
  | [] => Ok st
  | n_epoch :: rest =>
      do st' <- epoch_step opt_config st n_epoch;
      epoch_loop opt_config st' rest
  end.

(** [range(n)] *)
Definition py_range (n : Z) : list Z :=
  List.map Z.of_nat (seq 0 (Z.to_nat n)).

(** [optimize_shared] up to its [return]: the local variables there. *)
Definition optimize_shared_state (shared_params : hk_params leaf_t)
    (wfs : list WaveFunctionData) (opt_config : OptimizationConfig)
    (initial_opt_state : option opt_state_t) : result loop_state :=
  let n_wfs := len wfs in
  do (wfs, last) <- burn_in shared_params opt_config 0 wfs None;
  match last with
  | None => Raise (NameError "params")
  | Some (i, params) =>
      do wf <- py_getitem wfs (Z.of_nat i);
      do mcmc <- not_none (mcmc_state wf);
      do opt_state <-
        optimizer_init params mcmc (fixed_params wf) (clipping_params wf);
      let opt_state := py_or opt_state_truthy initial_opt_state opt_state in
      epoch_loop opt_config
        {| wfs := wfs; shared_params := shared_params; params := params;
           i := i; opt_state := opt_state; trace := [] |}
        (py_range (n_epochs opt_config * n_wfs))
  end.

(** A value of the tuple that [optimize_shared] returns. *)
Inductive returned : Type :=
  | RWfs (wfs : list WaveFunctionData)
  | RParams (p : hk_params leaf_t)
  | ROptState (s : opt_state_t).

(** [return wfs, shared_params, opt_state] *)
Definition return_tuple (st : loop_state) : list returned :=
  [RWfs (wfs st); RParams (shared_params st); ROptState (opt_state st)].

Definition optimize_shared (shared_params : hk_params leaf_t)
    (wfs : list WaveFunctionData) (opt_config : OptimizationConfig)
    (initial_opt_state : option opt_state_t) : result (list returned) :=
  do st <- optimize_shared_state shared_params wfs opt_config initial_opt_state;
  Ok (return_tuple st).

(** [a, b, c, d = t] *)
Definition unpack4 {A : Type} (t : list A) : result (A * A * A * A) :=
  match t with
  | [a; b; c; d] => Ok (a, b, c, d)
  | _ =>
      if (length t <? 4)%nat
      then Raise (ValueError ("not enough values to unpack (expected 4, got "
                              ++ pretty (length t) ++ ")"))
      else Raise (ValueError "too many values to unpack (expected 4)")
  end.

(** The body of the loop of [init_wfs]: a fresh record, its parameters
    split, its loggers. *)
Definition init_wf (shared_modules : list string) (i : nat) (p : physical_t)
  : result (WaveFunctionData * hk_params leaf_t) :=
  do (new_trainable_params, fixed) <- build_log_psi_squared p;
  do (new_shared_params, unique) <-
    split_params re_compile re_findall new_trainable_params shared_modules;
  do loggers <- build_loggers i;
  Ok ({| physical := p;
         fixed_params := fixed;
         unique_trainable_params := unique;
         mcmc_state := None;
         clipping_params := None;
         loggers := loggers;
         current_metrics := ∅;
         n_opt_epochs := 0;
         last_epoch_optimized := 0 |},
      new_shared_params).

Fixpoint init_wfs_loop (shared_modules : list string) (i : nat)
    (physical_configs : list physical_t)
    (shared_params : option (hk_params leaf_t))
  : result (list WaveFunctionData * option (hk_params leaf_t)) :=
  match physical_configs with
  | [] => Ok ([], shared_params)
  | p :: rest =>
      do (wf, new_shared_params) <- init_wf shared_modules i p;
      let shared_params :=
        if (i =? 0)%nat then Some new_shared_params else shared_params in
      do (wfs, shared_params) <-
        init_wfs_loop shared_modules (S i) rest shared_params;
      Ok (wf :: wfs, shared_params)
  end.

(** [init_wfs]: the targets and the shared parameters of the first one. *)
Definition init_wfs (physical_configs : list physical_t)
    (opt_config : OptimizationConfig)
  : result (list WaveFunctionData * hk_params leaf_t) :=
  do (wfs, shared_params) <-
    init_wfs_loop (shared_modules (shared_optimization opt_config)) 0
                  physical_configs None;
  match shared_params with
  | None => Raise (NameError "log_psi_squared")
  | Some shared_params => Ok (wfs, shared_params)
  end.

(** [process_molecule_shared], from the call of [init_wfs] on.  [after]
    stands for the statements that follow the unpacking of what
    [optimize_shared] returned, [otherwise] for the ones that run when no
    epoch is asked for. *)
Definition process_molecule_shared (physical_configs : list physical_t)
    (opt_config : OptimizationConfig)
    (after : returned * returned * returned * returned → result unit)
    (otherwise : list WaveFunctionData → hk_params leaf_t → result unit)
  : result unit :=
  do (wfs, shared_params) <- init_wfs physical_configs opt_config;
  let opt_state := None in
  if 0 <? n_epochs opt_config then
    do t <- optimize_shared shared_params wfs opt_config opt_state;
    do unpacked <- unpack4 t;
    after unpacked
  else otherwise wfs shared_params.
End Orchestrator.

(** *** What the loop keeps *)

Section Invariants.
Context `{Externals}.




End Invariants.

(** *** After the optimisation *)

Section AfterOptimization.
Context `{Externals}.

(** [for wf in wfs: _log_weights(...)]: the module defines no
    [_log_weights] (its definition is commented out), so the first pass
    raises when the name is looked up. *)
Definition log_weights_loop (wfs : list WaveFunctionData) : result unit :=
  match wfs with
  | [] => Ok tt
  | _ :: _ => Raise (NameError "_log_weights")
  end.

(** The statements of [process_molecule_shared] that run when no epoch is
    asked for: the [_log_weights] loop, then [evaluation] for the rest. *)
Definition without_optimization (evaluation : list WaveFunctionData → result unit)
    (wfs : list WaveFunctionData) (shared_params : hk_params leaf_t)
  : result unit :=
  do _ <- log_weights_loop wfs;
  evaluation wfs.
End AfterOptimization.

End Shared.

(** ** The class [WaveFunctionData] as Python builds it

    The record of [Shared] holds what each attribute evaluates to.  This
    module keeps the objects themselves: dicts live in a heap and are
    referred to by address; an instance is its [__dict__], and an attribute
    it does not have is read from the class. *)

Module Objects.

Inductive pyval : Type :=
  | PyNone
  | PyInt (z : Z)
  | PyRef (addr : nat).

Abbreviation attrs := (gmap string pyval).
Abbreviation heap := (gmap nat (gmap string pyval)).

(** [{}]: a new dict object. *)
Definition new_dict (h : heap) : nat * heap :=
  let addr := fresh (dom h) in (addr, <[addr := ∅]> h).

(** The class body, run once: every default is evaluated there, the two
    [{}] included. *)
Definition WaveFunctionData_class (h : heap) : attrs * heap :=
  let '(checkpoints, h) := new_dict h in
  let '(current_metrics, h) := new_dict h in
  ({[ "physical" := PyNone;
      "fixed_params" := PyNone;
      "unique_trainable_params" := PyNone;
      "mcmc_state" := PyNone;
      "clipping_params" := PyNone;
      "checkpoints" := PyRef checkpoints;
      "loggers" := PyNone;
      "current_metrics" := PyRef current_metrics;
      "n_opt_epochs" := PyInt 0;
      "last_epoch_optimized" := PyInt 0 ]}, h).

(** [@dataclass] makes a field of each annotated attribute, and of no
    other. *)
Definition dataclass_fields : list string :=
  ["mcmc_state"; "clipping_params"; "n_opt_epochs"; "last_epoch_optimized"].

(** [WaveFunctionData()]: the generated [__init__] sets each field to its
    default; the instance has no other attribute of its own. *)
Definition WaveFunctionData_new (cls : attrs) : attrs :=
  filter (λ kv, kv.1 ∈ dataclass_fields) cls.

(** [obj.name] *)
Definition getattr (cls obj : attrs) (name : string) : result pyval :=
  match obj !! name with
  | Some v => Ok v
  | None =>
      match cls !! name with
      | Some v => Ok v
      | None => Raise (AttributeError name)
      end
  end.

(** [obj.name = value] *)
Definition setattr (obj : attrs) (name : string) (value : pyval) : attrs :=
  <[name := value]> obj.

(** [obj.name[key] = value] *)
Definition setitem (cls obj : attrs) (h : heap) (name key : string)
    (value : pyval) : result heap :=
  do container <- getattr cls obj name;
  match container with
  | PyRef addr =>
      match h !! addr with
      | Some d => Ok (<[addr := <[key := value]> d]> h)
      | None => Raise (TypeError "object does not support item assignment")
      end
  | _ => Raise (TypeError "object does not support item assignment")
  end.

(** [obj.name[key]] *)
Definition getitem (cls obj : attrs) (h : heap) (name key : string)
  : result pyval :=
  do container <- getattr cls obj name;
  match container with
  | PyRef addr =>
      match h !! addr ≫= λ d, d !! key with
      | Some v => Ok v
      | None => Raise (KeyError key)
      end
  | _ => Raise (TypeError "object is not subscriptable")
  end.

End Objects.

(** ** Concrete collaborators and inputs, to run the definitions on *)

Module Examples.
Import Params Devices Shared Objects.

(** A regular-expression engine for patterns without metacharacters: the
    pattern is kept as it is, and [findall] lists the alternatives between
    the outer brackets that occur in the text. *)
Fixpoint split_on (sep : Ascii.ascii) (acc s : string) : list string :=
  match s with
  | EmptyString => [acc]
  | String c rest =>
      if Ascii.eqb c sep then acc :: split_on sep "" rest
      else split_on sep (acc ++ String c "") rest
  end.

Definition literal_compile (pattern : string) : result (list string) :=
  Ok (split_on "|"%char ""
        (String.substring 1 (String.length pattern - 2) pattern)).

Definition literal_findall (alternatives : list string) (text : string)
  : list string :=
  List.filter (λ alt, occurs_in alt text) alternatives.

Definition example_params : hk_params Z :=
  {[ "embed" := {[ "w" := 1; "b" := 2 ]}; "head" := {[ "w" := 3 ]} ]}.

Definition overlap_old : hk_params Z := {[ "dense" := {[ "w" := 1 ]} ]}.
Definition overlap_new : hk_params Z := {[ "dense" := {[ "w" := 2 ]} ]}.


(** Collaborators that do as little as possible: leaves are integers, the
    sampler state counts its steps, the optimiser leaves the parameters
    as they are and reports the target's fixed data as its samples. *)
#[export] Instance toy : Externals := {|
  leaf_t := Z;
  physical_t := unit;
  fixed_t := list float;
  mcmc_t := nat;
  clip_t := unit;
  opt_state_t := nat;
  opt_stats_t := unit;
  loggers_t := nat;
  regex_t := list string;
  re_compile := literal_compile;
  re_findall := literal_findall;
  jax_enable_x64 := false;
  device_count := 1;
  E_ref := λ _, None;
  resize_or_init := λ state _ _ _, Ok (default 0%nat state);
  init_clipping_state := tt;
  clip_truthy := λ _, true;
  opt_state_truthy := λ _, true;
  replicate_leaf := λ x, x;
  replicate_fixed := λ x, x;
  replicate_clip := λ x, x;
  run_burn_in := λ state _ _, Ok (S state);
  eval_log_psi_sqr := λ state _ _, Ok state;
  run_inter_steps := λ state _ _, Ok (S state);
  optimizer_init := λ _ _ _ _, Ok 0%nat;
  optimizer_step := λ params opt_state _ fixed clip,
    Ok (params, S opt_state, clip,
        {| E_loc_unclipped := fixed; E_loc_clipped := fixed;
           other_stats := tt |});
  stats_from_devices := λ stats, stats;
  build_log_psi_squared := λ _, Ok (example_params, [1; 3]%float);
  build_loggers := λ i, Ok i;
|}.

(** A target whose unique parameters are [unique], with samples [samples],
    optimised last at epoch [last] with [E_std] equal to [stddev]. *)
Definition target (unique : hk_params Z) (samples : list float) (last : Z)
    (stddev : float) : WaveFunctionData :=
  {| physical := tt;
     fixed_params := samples;
     unique_trainable_params := unique;
     mcmc_state := Some 0%nat;
     clipping_params := None;
     loggers := 0%nat;
     current_metrics := {[ "E_std" := Scalar stddev ]};
     n_opt_epochs := 0;
     last_epoch_optimized := last |}.

Definition scheduling (method : string) : SharedOptimizationConfig :=
  {| shared_modules := ["embed"]; scheduling_method := method; max_age := 50 |}.

Definition optimization (method : string) (n_epochs : Z) : OptimizationConfig :=
  {| n_epochs := n_epochs; n_walkers := 4;
     shared_optimization := scheduling method |}.

Definition shared_example : hk_params Z := {[ "embed" := {[ "w" := 1 ]} ]}.
Definition unique_a : hk_params Z := {[ "head_a" := {[ "w" := 5 ]} ]}.
Definition unique_b : hk_params Z := {[ "head_b" := {[ "w" := 7 ]} ]}.

(** Three targets at epoch 35, after the warm-up. *)
Definition three_targets : list WaveFunctionData :=
  [ target unique_a [] 34 0.5; target unique_a [] 30 2.5;
    target unique_a [] 33 2.5 ].

(** Two targets whose unique parameters have different keys; the samples
    of the first contain an infinite value. *)
Definition two_targets : list WaveFunctionData :=
  [ target unique_a [1; infinity]%float 0 0;
    target unique_b [2; 4]%float 0 0 ].

(** The local variables when the loop starts on [two_targets]: [params] is
    what the burn-in of the last target left, [i] its index. *)
Definition start_state : loop_state :=
  {| wfs := two_targets;
     shared_params := shared_example;
     params := hk_merge [shared_example; unique_b];
     i := 1;
     opt_state := 0%nat;
     trace := [] |}.

(** [start_state] after the epoch 0 of a round-robin run. *)
Definition after_epoch_0 : loop_state :=
  match epoch_step (optimization "round_robin" 1) start_state 0 with
  | Ok st => st
  | Raise _ => start_state
  end.

(** The entries of an array that are finite. *)
Definition finite_entries (xs : list float) : list float :=
  List.filter PrimFloat.is_finite xs.


Definition stddev_config : SharedOptimizationConfig := scheduling "stddev".

(** The run of [optimize_shared] on [two_targets], round robin, one epoch
    per target. *)
Definition round_robin_run : result loop_state :=
  optimize_shared_state shared_example two_targets
    (optimization "round_robin" 1) None.

(** The class, the heap after its body ran, and two records built by
    [WaveFunctionData()]. *)
Definition class_and_heap : attrs * heap := WaveFunctionData_class ∅.
Definition wf_0 : attrs := WaveFunctionData_new class_and_heap.1.
Definition wf_1 : attrs := WaveFunctionData_new class_and_heap.1.

End Examples.

(** ** Job names ([run_tools/dispatch.py]) *)

Module Dispatch.

(** [s.rjust(width, '0')] *)
Definition zero_pad (width : nat) (digits : string) : string :=
  string_of_list_ascii (repeat "0"%char (width - String.length digits))
  ++ digits.
Arguments zero_pad : simpl never.

(** [f"{idx:04d}"]: the decimal digits of [idx], with zeros in front up to
    four characters; the sign of a negative number comes first and counts
    as one of the four. *)
Definition idx_to_job_name (idx : Z) : string :=
  if idx <? 0 then "-" ++ zero_pad 3 (pretty (Z.to_N (- idx)))
  else zero_pad 4 (pretty (Z.to_N idx)).

(** The number that a string of decimal digits denotes, read from the
    left with [acc] for the digits already read. *)
Definition digit_value (c : ascii) : N :=
  (N_of_ascii c - N_of_ascii "0")%N.

Fixpoint decimal_value (acc : N) (s : string) : N :=
  match s with
  | EmptyString => acc
  | String c rest => decimal_value (acc * 10 + digit_value c)%N rest
  end.

End Dispatch.

(** ** Writing a geometry ([save_xyz_file] of [utils.py]) *)

Module Xyz.
Import Shared.

Definition PERIODIC_TABLE : list string :=
  [ "H"; "He"; "Li"; "Be"; "B"; "C"; "N"; "O"; "F"; "Ne"; "Na"; "Mg"; "Al";
    "Si"; "P"; "S"; "Cl"; "Ar"; "K"; "Ca"; "Sc"; "Ti"; "V"; "Cr"; "Mn"; "Fe";
    "Co"; "Ni"; "Cu"; "Zn"; "Ga"; "Ge"; "As"; "Se"; "Br"; "Kr" ].

(** [1.88973], as the closest double. *)
Definition ANGSTROM_IN_BOHR : float := 0x1.e3c558644523fp+0%float.

Definition newline : string := String (ascii_of_nat 10) "".

(** How a call ends: it returns, its [assert] fails, or a statement
    raises. *)
Inductive outcome : Type :=
  | Returned
  | AssertionError
  | Raised (e : exn).

(** The position of an ion: a row of an array of shape [(n, 3)]. *)
Definition position : Type := float * float * float.

Section Writer.
(** [f"{x:-.10f}"] *)
Variable format_coordinate : float → string.

(** The line of one atom.  The format [3>] of the symbol names a fill
    character and an alignment and no width: the symbol is written as it
    is. *)
Definition atom_line (Z_ : Z) (R_ : position) : result string :=
  do symbol <- py_getitem PERIODIC_TABLE (Z_ - 1);
  let '(x, y, z) := R_ in
  Ok (symbol ++ " " ++ format_coordinate (x / ANGSTROM_IN_BOHR)
      ++ " " ++ format_coordinate (y / ANGSTROM_IN_BOHR)
      ++ " " ++ format_coordinate (z / ANGSTROM_IN_BOHR) ++ newline).

(** [for Z_, R_ in zip(Z, R): f.write(...)], after the writes in
    [written]: what has been written when the loop ends, and how. *)
Fixpoint write_atoms (atoms : list (Z * position)) (written : list string)
  : list string * outcome :=
  match atoms with
  | [] => (written, Returned)
  | (Z_, R_) :: rest =>
      match atom_line Z_ R_ with
      | Ok line => write_atoms rest (written ++ [line])
      | Raise e => (written, Raised e)
      end
  end.

(** [save_xyz_file]: what the file holds after the call ([None] when the
    call did not open it), and how the call ends. *)
Definition save_xyz_file (R : list position) (atomic_numbers : list Z)
    (comment : string) : option (list string) * outcome :=
  if negb (length R =? length atomic_numbers)%nat then (None, AssertionError)
  else
    let written := [pretty (length R) ++ newline; comment ++ newline] in
    let '(written, how) := write_atoms (zip atomic_numbers R) written in
    (Some written, how).
End Writer.

End Xyz.

(** ** More inputs, for the facts beyond the claims *)

Module MoreExamples.
Import Params Devices Shared Examples.

(** The two parts of [example_params] for the shared module [embed]. *)
Definition example_shared : hk_params Z :=
  {[ "embed" := {[ "w" := 1; "b" := 2 ]} ]}.
Definition example_unique : hk_params Z := {[ "head" := {[ "w" := 3 ]} ]}.

(** A leaf that stands for an array with that many entries. *)
Definition entries (leaf : Z) : nat := Z.to_nat leaf.

(** Three targets at epoch 35, the second with a NaN [E_std]. *)
Definition nan_targets : list WaveFunctionData :=
  [ target unique_a [] 34 0.5; target unique_a [] 30 nan;
    target unique_a [] 33 2.5 ].

(** A target that was never optimised: its metrics are empty. *)
Definition unmeasured : WaveFunctionData :=
  {| physical := tt;
     fixed_params := [];
     unique_trainable_params := unique_b;
     mcmc_state := Some 0%nat;
     clipping_params := None;
     loggers := 0%nat;
     current_metrics := ∅;
     n_opt_epochs := 0;
     last_epoch_optimized := 33 |}.

Definition unmeasured_targets : list WaveFunctionData :=
  [ target unique_a [] 34 0.5; unmeasured ].



(** An integer array held by two devices with different data, and a
    comparison that finds two arrays close when they are equal. *)
Definition two_device_data : pytree (list (list Z)) := Leaf [[1; 2]; [3; 4]].

Definition equal_arrays (a b : list (list Z)) : bool := bool_decide (a = b).

(** A stand-in for the formatting of a coordinate. *)
Definition coordinate_sign (x : float) : string :=
  if PrimFloat.ltb x 0 then "-" else "+".

End MoreExamples.
Import Params Examples.

Section PartitionerFacts.
Context {V : Type}.
Implicit Types (structure out a b : hk_params V) (l : list (string * string * V)).

Lemma leaf_insert_leaf out m n v m' n' :
  leaf (insert_leaf out m n v) m' n'
  = if decide (m = m' ∧ n = n') then Some v else leaf out m' n'.
Proof.
  unfold leaf, insert_leaf.
  destruct (decide (m = m')) as [->|Hm].
  - rewrite lookup_insert_eq. simpl.
    destruct (decide (n = n')) as [->|Hn].
    + rewrite lookup_insert_eq. rewrite decide_True; auto.
    + rewrite lookup_insert_ne by done. rewrite decide_False by tauto.
      destruct (out !! m'); simpl; [done | apply lookup_empty].
  - rewrite lookup_insert_ne by done. rewrite decide_False by tauto. done.
Qed.

Lemma elem_of_traverse structure m n v :
  (m, n, v) ∈ traverse structure ↔ leaf structure m n = Some v.
Proof.
  unfold traverse, leaf. rewrite list_elem_of_bind. split.
  - intros [[m' ms] [Hin Hm]]. apply elem_of_map_to_list in Hm.
    apply list_elem_of_bind in Hin as [[n' v'] [Hin Hn]].
    apply elem_of_map_to_list in Hn.
    apply list_elem_of_singleton in Hin. simplify_eq. rewrite Hm. done.
  - intros H. destruct (structure !! m) as [ms|] eqn:Hm; simpl in H; [|done].
    exists (m, ms). split; [|by apply elem_of_map_to_list].
    apply list_elem_of_bind. exists (n, v).
    split; [by apply list_elem_of_singleton | by apply elem_of_map_to_list].
Qed.

Lemma traverse_functional structure : functional (traverse structure).
Proof.
  intros m n v v' H H'. apply elem_of_traverse in H, H'. congruence.
Qed.

Lemma leaf_write_leaves_absent l out m n :
  (∀ v, (m, n, v) ∉ l) → leaf (write_leaves l out) m n = leaf out m n.
Proof.
  revert out. induction l as [|[[m' n'] v'] l IH]; intros out Hno; [done|].
  simpl. rewrite IH.
  - rewrite leaf_insert_leaf. rewrite decide_False; [done|].
    intros [-> ->]. apply (Hno v'). left.
  - intros v Hin. apply (Hno v). by right.
Qed.

Lemma leaf_write_leaves_present l out m n v :
  functional l → (m, n, v) ∈ l → leaf (write_leaves l out) m n = Some v.
Proof.
  revert out. induction l as [|[[m' n'] v'] l IH]; intros out Hf Hin.
  { by apply elem_of_nil in Hin. }
  simpl.
  destruct (decide ((m, n) ∈ (fst <$> l))) as [Hk|Hk].
  - apply list_elem_of_fmap in Hk as [[[m2 n2] v2] [Heq Hin2]].
    simpl in Heq. simplify_eq.
    assert (v2 = v) as ->.
    { eapply Hf; [right; exact Hin2 | exact Hin]. }
    apply IH; [|done].
    intros ???? H1 H2. eapply Hf; right; eauto.
  - rewrite leaf_write_leaves_absent.
    + apply elem_of_cons in Hin as [Heq|Hin].
      * simplify_eq. rewrite leaf_insert_leaf. by rewrite decide_True.
      * exfalso. apply Hk. apply list_elem_of_fmap. by exists (m, n, v).
    + intros v0 Hin0. apply Hk. apply list_elem_of_fmap. by exists (m, n, v0).
Qed.

(** The leaves of [write_leaves (traverse structure) out]. *)
Lemma leaf_write_traverse structure out m n :
  leaf (write_leaves (traverse structure) out) m n
  = match leaf structure m n with Some v => Some v | None => leaf out m n end.
Proof.
  destruct (leaf structure m n) as [v|] eqn:Hl.
  - apply leaf_write_leaves_present; [apply traverse_functional|].
    by apply elem_of_traverse.
  - apply leaf_write_leaves_absent. intros v Hin.
    apply elem_of_traverse in Hin. congruence.
Qed.

Lemma leaf_hk_merge2 a b m n :
  leaf (hk_merge [a; b]) m n
  = match leaf b m n with Some v => Some v | None => leaf a m n end.
Proof.
  unfold hk_merge. simpl. rewrite !leaf_write_traverse.
  destruct (leaf b m n), (leaf a m n); try done.
Qed.

Lemma hk_partition_write (predicate : string → string → V → bool) l sh un :
  fold_left
    (λ (out : hk_params V * hk_params V) '(module_name, name, value),
       if predicate module_name name value
       then (insert_leaf out.1 module_name name value, out.2)
       else (out.1, insert_leaf out.2 module_name name value))
    l (sh, un)
  = (write_leaves (filter (goes_to predicate true) l) sh,
     write_leaves (filter (goes_to predicate false) l) un).
Proof.
  revert sh un. induction l as [|[[m n] v] l IH]; intros sh un; [done|].
  simpl. rewrite !filter_cons.
  destruct (predicate m n v) eqn:Hp; simpl; rewrite IH.
  - rewrite decide_True by done.
    rewrite decide_False by (unfold goes_to; simpl; congruence). done.
  - rewrite decide_False by (unfold goes_to; simpl; congruence).
    rewrite decide_True by done. done.
Qed.

Lemma leaf_write_filter (P : string * string * V → Prop) `{!∀ x, Decision (P x)}
    structure m n :
  leaf (write_leaves (filter P (traverse structure)) ∅) m n
  = leaf structure m n ≫= λ v, if decide (P (m, n, v)) then Some v else None.
Proof.
  destruct (leaf structure m n) as [v|] eqn:Hl; simpl.
  - destruct (decide (P (m, n, v))) as [HP|HP].
    + apply leaf_write_leaves_present.
      * intros m0 n0 v1 v2 H1 H2.
        apply list_elem_of_filter in H1 as [_ H1].
        apply list_elem_of_filter in H2 as [_ H2].
        eapply traverse_functional; [apply H1 | apply H2].
      * apply list_elem_of_filter. split; [done|]. by apply elem_of_traverse.
    + rewrite leaf_write_leaves_absent; [done|].
      intros v0 Hin. apply list_elem_of_filter in Hin as [HP0 Hin].
      apply elem_of_traverse in Hin. congruence.
  - rewrite leaf_write_leaves_absent; [done|].
    intros v0 Hin. apply list_elem_of_filter in Hin as [HP0 Hin].
    apply elem_of_traverse in Hin. congruence.
Qed.

Lemma leaf_hk_partition (predicate : string → string → V → bool) structure m n :
  leaf (hk_partition predicate structure).1 m n
  = (leaf structure m n ≫= λ v, if predicate m n v then Some v else None)
  ∧ leaf (hk_partition predicate structure).2 m n
  = (leaf structure m n ≫= λ v, if predicate m n v then None else Some v).
Proof.
  unfold hk_partition. rewrite hk_partition_write. simpl.
  rewrite !leaf_write_filter.
  destruct (leaf structure m n) as [v|]; simpl; [|done].
  destruct (predicate m n v) eqn:Hp; split; case_decide as Hd;
    unfold goes_to in Hd; simpl in Hd; congruence.
Qed.

Lemma no_empty_module_insert_leaf out m n v :
  no_empty_module out → no_empty_module (insert_leaf out m n v).
Proof.
  intros H. apply map_Forall_insert_2; [|done]. apply insert_non_empty.
Qed.

Lemma no_empty_module_write_leaves l out :
  no_empty_module out → no_empty_module (write_leaves l out).
Proof.
  revert out. induction l as [|[[m n] v] l IH]; intros out H; [done|].
  simpl. apply IH. by apply no_empty_module_insert_leaf.
Qed.

Lemma no_empty_module_empty : no_empty_module (∅ : hk_params V).
Proof. apply map_Forall_empty. Qed.

Lemma no_empty_module_hk_merge a b : no_empty_module (hk_merge [a; b]).
Proof.
  unfold hk_merge. simpl.
  do 2 apply no_empty_module_write_leaves. apply no_empty_module_empty.
Qed.

(** Structures without empty modules are equal when their leaves are. *)
Lemma params_eq a b :
  no_empty_module a → no_empty_module b →
  (∀ m n, leaf a m n = leaf b m n) → a = b.
Proof.
  intros Ha Hb Hl. apply map_eq. intros m.
  assert (Hsome : ∀ (x y : hk_params V) ms,
             no_empty_module x → (∀ n, leaf x m n = leaf y m n) →
             x !! m = Some ms → ∃ ms', y !! m = Some ms').
  { intros x y ms Hx Hxy Hm.
    destruct (y !! m) as [ms'|] eqn:Hy; [eauto|].
    exfalso. apply (Hx m ms Hm). apply map_eq. intros n.
    specialize (Hxy n). unfold leaf in Hxy. rewrite Hm, Hy in Hxy.
    simpl in Hxy. rewrite Hxy. by rewrite lookup_empty. }
  destruct (a !! m) as [ms|] eqn:Ham.
  - destruct (Hsome a b ms Ha (Hl m) Ham) as [ms' Hbm]. rewrite Hbm.
    f_equal. apply map_eq. intros n. specialize (Hl m n).
    unfold leaf in Hl. rewrite Ham, Hbm in Hl. done.
  - destruct (b !! m) as [ms'|] eqn:Hbm; [|done].
    destruct (Hsome b a ms' Hb (λ n, eq_sym (Hl m n)) Hbm) as [ms Ham'].
    congruence.
Qed.
End PartitionerFacts.

Section PartitionerClaims.
Context {V regex : Type}.
Variable re_compile : string → result regex.
Variable re_findall : regex → string → list string.

(** C1. Partition round trip: whenever the pattern compiles, [split_params]
    returns two parts and [merge_params] of them is the parameter set that
    was split, leaf for leaf.  It holds for every list of patterns, so in
    particular for the non-overlapping ones. *)
Theorem merge_split_roundtrip (structure : hk_params V)
    (module_names : list string) (r : regex) :
  no_empty_module structure →
  re_compile ("(" ++ join "|" module_names ++ ")") = Ok r →
  ∃ shared unique,
    split_params re_compile re_findall structure module_names
      = Ok (shared, unique)
    ∧ merge_params shared unique = Ok structure.
Proof.
  intros Hne Hre. unfold split_params, get_params_filter_func.
  rewrite Hre. simpl.
  match goal with |- context [hk_partition ?f _] => set (filter_func := f) end.
  exists (hk_partition filter_func structure).1,
         (hk_partition filter_func structure).2.
  split; [by destruct (hk_partition filter_func structure)|].
  unfold merge_params. f_equal.
  apply params_eq; [apply no_empty_module_hk_merge | done |].
  intros m n. rewrite leaf_hk_merge2.
  destruct (leaf_hk_partition filter_func structure m n) as [-> ->].
  destruct (leaf structure m n) as [v|]; simpl; [|done].
  by destruct (filter_func m n v).
Qed.

(** C2 (as the code has it). [merge_params] raises for no pair of
    partitions: it returns the structure whose leaf at a key is the one of
    [params_new] when [params_new] has the key, and the one of [params_old]
    otherwise. *)
Theorem merge_params_last_wins (params_old params_new : hk_params V) :
  ∃ merged,
    merge_params params_old params_new = Ok merged
    ∧ ∀ module_name name,
        leaf merged module_name name
        = match leaf params_new module_name name with
          | Some v => Some v
          | None => leaf params_old module_name name
          end.
Proof.
  eexists. split; [reflexivity|]. intros m n. apply leaf_hk_merge2.
Qed.
End PartitionerClaims.

Lemma example_params_no_empty_module : no_empty_module example_params.
Proof.
  unfold example_params. intros m ms Hm.
  apply lookup_insert_Some in Hm as [[_ <-]|[_ Hm]].
  - apply insert_non_empty.
  - apply lookup_singleton_Some in Hm as [_ <-]. apply insert_non_empty.
Qed.

Lemma merge_split_roundtrip_witness :
  no_empty_module example_params
  ∧ literal_compile ("(" ++ join "|" ["embed"] ++ ")") = Ok ["embed"]
  ∧ ∃ shared unique,
      split_params literal_compile literal_findall example_params ["embed"]
        = Ok (shared, unique)
      ∧ merge_params shared unique = Ok example_params.
Proof.
  assert (Hre : literal_compile ("(" ++ join "|" ["embed"] ++ ")")
                = Ok ["embed"]) by reflexivity.
  split; [exact example_params_no_empty_module|]. split; [exact Hre|].
  exact (merge_split_roundtrip literal_compile literal_findall example_params
           ["embed"] ["embed"] example_params_no_empty_module Hre).
Defined.

(** C2, against the claim as stated: two partitions that share the key
    [dense/w]; [merge_params] returns, with the leaf of the second, and
    raises nothing. *)
Lemma merge_params_overlap_returns :
  share_key overlap_old overlap_new
  ∧ leaf overlap_old "dense" "w" = Some 1
  ∧ merge_params overlap_old overlap_new = Ok overlap_new
  ∧ ∀ e, merge_params overlap_old overlap_new ≠ Raise e.
Proof.
  split; [|split; [|split]].
  - exists "dense", "w". split; eexists; reflexivity.
  - reflexivity.
  - vm_compute. reflexivity.
  - intros e H. discriminate H.
Qed.
Import Devices.

Lemma pytree_induction {A : Type} (P : pytree A → Prop) :
  (∀ a, P (Leaf a)) →
  (∀ children, Forall P children → P (Node children)) →
  ∀ t, P t.
Proof.
  intros Hleaf Hnode. fix IH 1. intros [a|children].
  - apply Hleaf.
  - apply Hnode. induction children as [|t l IHl]; constructor; [apply IH | apply IHl].
Qed.

Section ReplicationFacts.
Context {E : Type} `{Dtype E}.








Lemma nth_const_map {A B : Type} (b d0 : B) (l : list A) (d : nat) :
  (d < length l)%nat → nth d (List.map (λ _, b) l) d0 = b.
Proof.
  revert d. induction l as [|a l IH]; intros [|d] Hd; simpl in *; try lia; [done|].
  apply IH. lia.
Qed.

End ReplicationFacts.


(** ** Facts about the scheduling policy *)

Import Shared.

Local Open Scope list_scope.

(** *** Order of the floats that are not NaN, from Rocq's specification of
    binary64 comparison *)

Ltac sf_cases :=
  repeat match goal with
  | |- context [Pos.compare_cont Eq ?a ?b] =>
      change (Pos.compare_cont Eq a b) with (Pos.compare a b)
  | H : context [Pos.compare_cont Eq ?a ?b] |- _ =>
      change (Pos.compare_cont Eq a b) with (Pos.compare a b) in H
  end;
  repeat match goal with
  | |- context [Z.compare ?a ?b] => destruct (Z.compare_spec a b)
  | H : context [Z.compare ?a ?b] |- _ => destruct (Z.compare_spec a b)
  | |- context [Pos.compare ?a ?b] => destruct (Pos.compare_spec a b)
  | H : context [Pos.compare ?a ?b] |- _ => destruct (Pos.compare_spec a b)
  end;
  simpl in *; try congruence; try lia.





Lemma SFeqb_refl (x : spec_float) : x ≠ S754_nan → SFeqb x x = true.
Proof.
  unfold SFeqb. destruct x as [[]|[]| |[] mx ex]; simpl; try congruence;
    intros _; sf_cases.
Qed.

Lemma SFeqb_trans (x y z : spec_float) :
  SFeqb x y = true → SFeqb y z = true → SFeqb x z = true.
Proof.
  unfold SFeqb.
  destruct x as [[]|[]| |[] mx ex], y as [[]|[]| |[] my ey],
           z as [[]|[]| |[] mz ez]; simpl; try congruence; sf_cases.
Qed.

Lemma is_nan_spec (x : float) :
  PrimFloat.is_nan x = true ↔ Prim2SF x = S754_nan.
Proof.
  unfold PrimFloat.is_nan. rewrite FloatAxioms.eqb_spec. split.
  - intros Hn. destruct (Prim2SF x) eqn:Hx; try reflexivity;
      rewrite SFeqb_refl in Hn by congruence; discriminate.
  - intros ->. reflexivity.
Qed.

Lemma not_nan_spec (x : float) :
  PrimFloat.is_nan x = false → Prim2SF x ≠ S754_nan.
Proof.
  intros Hn Hx. apply is_nan_spec in Hx. congruence.
Qed.





(** *** The first index of the largest element *)





(** *** [get_index] *)

Section SchedulingFacts.
Context `{Externals}.

Lemma wrap_small (bits z : Z) :
  0 < bits → - 2 ^ (bits - 1) ≤ z < 2 ^ (bits - 1) → wrap bits z = z.
Proof.
  intros Hb Hz. unfold wrap.
  assert (H2 : 2 ^ bits = 2 * 2 ^ (bits - 1)).
  { rewrite <- Z.pow_succ_r by lia. f_equal. lia. }
  rewrite Z.mod_small by lia. lia.
Qed.

Lemma int_bits_pos x64 : 0 < int_bits x64.
Proof. by destruct x64. Qed.

Lemma wf_ages_exact (n_epoch : Z) (wfs : list WaveFunctionData) :
  counters_fit n_epoch wfs →
  List.map (λ wf, wrap (int_bits jax_enable_x64)
                    (n_epoch - wrap (int_bits jax_enable_x64)
                                    (last_epoch_optimized wf))) wfs
  = List.map (age n_epoch) wfs.
Proof.
  intros [Hn Hwfs]. pose proof (int_bits_pos jax_enable_x64) as Hb.
  induction Hwfs as [|wf wfs Hwf _ IH]; simpl; [done|].
  rewrite IH. f_equal. unfold age.
  assert (0 < 2 ^ (int_bits jax_enable_x64 - 1)) by (apply Z.pow_pos_nonneg; lia).
  rewrite (wrap_small _ (last_epoch_optimized wf)) by lia.
  apply wrap_small; lia.
Qed.

Lemma existsb_age (max_age n_epoch : Z) (wfs : list WaveFunctionData) :
  existsb (λ a, max_age <? a) (List.map (age n_epoch) wfs) = true
  ↔ Exists (λ wf, max_age < age n_epoch wf) wfs.
Proof.
  rewrite existsb_exists, Exists_exists. split.
  - intros [a [Hin Ha]]. apply in_map_iff in Hin as [wf [<- Hin]].
    exists wf. split; [by apply list_elem_of_In | lia].
  - intros [wf [Hin Hwf]]. exists (age n_epoch wf).
    split; [apply in_map; by apply list_elem_of_In | lia].
Qed.

Lemma rmapM_E_std (wfs : list WaveFunctionData) (stddevs : list float) :
  Forall2 (λ wf s, current_metrics wf !! "E_std" = Some (Scalar s)) wfs stddevs →
  rmapM (λ wf, dict_getitem (current_metrics wf) "E_std") wfs
  = Ok (List.map Scalar stddevs).
Proof.
  induction 1 as [|wf s wfs stddevs Hwf _ IH]; simpl; [done|].
  unfold dict_getitem at 1. rewrite Hwf. simpl. by rewrite IH.
Qed.

Lemma np_argmax_scalars (stddevs : list float) :
  stddevs ≠ [] → np_argmax (List.map Scalar stddevs) = argmax_float stddevs.
Proof.
  destruct stddevs as [|s stddevs]; [done|]. intros _. unfold np_argmax.
  change (List.map Scalar (s :: stddevs))
    with (Scalar s :: List.map Scalar stddevs).
  lazy beta iota.
  match goal with |- context [forallb ?f ?l] =>
    assert (Hf : forallb f l = true) end.
  { apply forallb_forall. intros v Hv.
    change (Scalar s :: List.map Scalar stddevs)
      with (List.map Scalar (s :: stddevs)) in Hv.
    apply in_map_iff in Hv as [x [<- _]]. by apply bool_decide_eq_true. }
  rewrite Hf. f_equal.
  change (Scalar s :: List.map Scalar stddevs)
    with (List.map Scalar (s :: stddevs)).
  generalize (s :: stddevs). intros l.
  induction l as [|x l IH]; simpl; [done|]. by rewrite IH.
Qed.




(** C9 (as the code has it). For a method other than [round_robin] and
    [stddev], [get_index] raises, whatever the epoch and the targets, and
    the error is the same for every such method. *)
Theorem get_index_unsupported (n_epoch : Z) (wfs : list WaveFunctionData)
    (config : SharedOptimizationConfig) :
  scheduling_method config ≠ "round_robin" →
  scheduling_method config ≠ "stddev" →
  get_index n_epoch wfs config
  = Raise (TypeError "exceptions must derive from BaseException").
Proof.
  intros Hrr Hsd. unfold get_index.
  destruct (String.eqb_spec (scheduling_method config) "round_robin"); [done|].
  destruct (String.eqb_spec (scheduling_method config) "stddev"); done.
Qed.
End SchedulingFacts.

(** ** Facts about the optimisation loop *)

Section OrchestratorFacts.
Context `{Externals}.

Lemma rbind_Ok {A B : Type} (r : result A) (k : A → result B) (b : B) :
  rbind r k = Ok b → ∃ a, r = Ok a ∧ k a = Ok b.
Proof. destruct r as [a|e]; simpl; [eauto | discriminate]. Qed.

Lemma py_position_getitem {A : Type} (l : list A) (i : Z) (index : nat) (a : A) :
  py_position l i = Ok index → py_getitem l i = Ok a → l !! index = Some a.
Proof.
  unfold py_position, py_getitem.
  destruct ((0 <=? _) && _); [|discriminate].
  intros [= <-]. destruct (l !! _); [|discriminate]. by intros [= ->].
Qed.

(** What a completed epoch did, step by step. *)
Lemma epoch_step_inv (opt_config : OptimizationConfig) (st st' : loop_state)
    (n_epoch : Z) :
  epoch_step opt_config st n_epoch = Ok st' →
  ∃ index_next index wf mcmc0 mcmc1 mcmc params' opt_state' clip' stats
    shared_params' unique',
    get_index n_epoch (wfs st) (shared_optimization opt_config) = Ok index_next
    ∧ py_position (wfs st) index_next = Ok index
    ∧ wfs st !! index = Some wf
    ∧ mcmc_state wf = Some mcmc0
    ∧ eval_log_psi_sqr mcmc0
        (hk_merge [params st; unique_trainable_params wf]) (fixed_params wf)
      = Ok mcmc1
    ∧ run_inter_steps mcmc1
        (hk_merge [params st; unique_trainable_params wf]) (fixed_params wf)
      = Ok mcmc
    ∧ optimizer_step (hk_merge [params st; unique_trainable_params wf])
        (opt_state st) mcmc (fixed_params wf) (clipping_params wf)
      = Ok (params', opt_state', clip', stats)
    ∧ split_params re_compile re_findall params'
        (shared_modules (shared_optimization opt_config))
      = Ok (shared_params', unique')
    ∧ st' =
      {| wfs :=
           <[index :=
               {| physical := physical wf;
                  fixed_params := fixed_params wf;
                  unique_trainable_params := unique';
                  mcmc_state := Some mcmc;
                  clipping_params := clip';
                  loggers := loggers wf;
                  current_metrics :=
                    {[ "E_mean" := Array (E_loc_clipped stats);
                       "E_std" := Scalar (nanstd (E_loc_clipped stats)) ]};
                  n_opt_epochs := n_opt_epochs wf + 1;
                  last_epoch_optimized := n_epoch |}]> (wfs st);
         shared_params := shared_params';
         params := params';
         i := i st;
         opt_state := opt_state';
         trace :=
           trace st
           ++ [ {| ep_n_epoch := n_epoch;
                   ep_index := index;
                   ep_sampler_params :=
                     hk_merge [params st; unique_trainable_params wf];
                   ep_step_params :=
                     hk_merge [params st; unique_trainable_params wf];
                   ep_log :=
                     {| log_logger := i st;
                        log_E_loc_unclipped := E_loc_unclipped stats;
                        log_E_loc_clipped := E_loc_clipped stats;
                        log_E_ref := E_ref (physical wf);
                        log_mcmc_state := mcmc;
                        log_opt_stats := stats_from_devices stats |} |} ] |}.
Proof.
  unfold epoch_step. intros Hstep.
  apply rbind_Ok in Hstep as [index_next [Hidx Hstep]].
  apply rbind_Ok in Hstep as [index [Hpos Hstep]].
  apply rbind_Ok in Hstep as [wf [Hwf Hstep]].
  unfold merge_params in Hstep. simpl in Hstep.
  apply rbind_Ok in Hstep as [mcmc0 [Hm0 Hstep]].
  apply rbind_Ok in Hstep as [mcmc1 [Hm1 Hstep]].
  apply rbind_Ok in Hstep as [mcmc [Hm Hstep]].
  apply rbind_Ok in Hstep as [[[[params' opt_state'] clip'] stats] [Hopt Hstep]].
  apply rbind_Ok in Hstep as [[shared_params' unique'] [Hsplit Hstep]].
  apply rbind_Ok in Hstep as [wfi [_ Hstep]].
  injection Hstep as <-.
  exists index_next, index, wf, mcmc0, mcmc1, mcmc, params', opt_state', clip',
         stats, shared_params', unique'.
  repeat split; try done.
  - by eapply py_position_getitem.
  - by destruct (mcmc_state wf); simpl in Hm0; simplify_eq.
Qed.

(** C5 (as the code has it). After a completed epoch the selected target's
    [E_std] is [jnp.nanstd] of the clipped samples the optimiser returned:
    their standard deviation over the entries that are not NaN.  The
    target's [last_epoch_optimized] is the epoch, and its [n_opt_epochs] has
    grown by one. *)
Theorem epoch_metrics (opt_config : OptimizationConfig) (st st' : loop_state)
    (n_epoch : Z) :
  epoch_step opt_config st n_epoch = Ok st' →
  ∃ rec wf wf',
    trace st' = trace st ++ [rec]
    ∧ wfs st !! ep_index rec = Some wf
    ∧ wfs st' !! ep_index rec = Some wf'
    ∧ current_metrics wf' !! "E_std"
      = Some (Scalar (nanstd (log_E_loc_clipped (ep_log rec))))
    ∧ nanstd (log_E_loc_clipped (ep_log rec))
      = std (List.filter (λ x, negb (PrimFloat.is_nan x))
                         (log_E_loc_clipped (ep_log rec)))
    ∧ last_epoch_optimized wf' = n_epoch
    ∧ n_opt_epochs wf' = n_opt_epochs wf + 1.
Proof.
  intros Hstep. apply epoch_step_inv in Hstep
    as (index_next & index & wf & mcmc0 & mcmc1 & mcmc & params' & opt_state'
        & clip' & stats & shared_params' & unique' & _ & _ & Hwf & _ & _ & _
        & _ & _ & ->).
  eexists _, wf, _. simpl. split; [reflexivity|]. simpl.
  split; [done|]. split.
  { apply list_lookup_insert_eq. by eapply lookup_lt_Some. }
  simpl. repeat split. 
Qed.



(** When the unique parameters [unique] of a target have a leaf for every
    key of the unique part [unique'] of the full set [full], every leaf of
    [full] that they do not replace is a leaf of its shared part: the
    condition of [epoch_params_flow] holds at the next epoch. *)
Lemma same_keys_cover (full shared unique' unique : hk_params leaf_t) :
  (∀ m n, leaf full m n
          = match leaf unique' m n with
            | Some v => Some v
            | None => leaf shared m n
            end) →
  (∀ m n, is_Some (leaf unique' m n) → is_Some (leaf unique m n)) →
  ∀ m n, leaf unique m n = None → leaf full m n = leaf shared m n.
Proof.
  intros Hfull Hkeys m n Hnone. rewrite Hfull.
  destruct (leaf unique' m n) as [v|] eqn:Hu; [|done].
  destruct (Hkeys m n) as [v' Hv']; [by eexists | congruence].
Qed.

(** What the burn-in loop leaves in [i] and [params]: the index of the
    last target, and the replicated merge of the shared set with that
    target's unique parameters. *)
Lemma burn_in_last (shared_params : hk_params leaf_t)
    (opt_config : OptimizationConfig) (wfs wfs' : list WaveFunctionData)
    (i0 : nat) (last0 last' : option (nat * hk_params leaf_t)) :
  burn_in shared_params opt_config i0 wfs last0 = Ok (wfs', last') →
  length wfs' = length wfs
  ∧ last' = match last wfs with
            | None => last0
            | Some wf =>
                Some ((i0 + length wfs - 1)%nat,
                      replicate_params
                        (hk_merge [shared_params; unique_trainable_params wf]))
            end.
Proof.
  revert wfs' i0 last0.
  induction wfs as [|wf wfs IH]; intros wfs' i0 last0 Hb; simpl in Hb.
  { by injection Hb as <- <-. }
  apply rbind_Ok in Hb as [[wf1 params1] [Hwf Hb]].
  apply rbind_Ok in Hb as [[rest' last1] [Hrest Hb]].
  injection Hb as <- <-. apply IH in Hrest as [Hlen ->].
  split; [simpl; by rewrite Hlen|].
  destruct wfs as [|wf2 wfs].
  - simpl. f_equal. f_equal; [lia|].
    unfold burn_in_wf in Hwf.
    apply rbind_Ok in Hwf as [mcmc0 [_ Hwf]].
    unfold merge_params in Hwf. simpl in Hwf.
    apply rbind_Ok in Hwf as [mcmc [_ Hwf]]. by injection Hwf as _ <-.
  - rewrite last_cons_cons.
    destruct (last (wf2 :: wfs)) as [wfl|] eqn:Hl.
    + f_equal. f_equal. simpl. lia.
    + by apply last_None in Hl.
Qed.

(** Every [log_step] of a run goes to the logger at position [i]. *)
Lemma epoch_loop_loggers (opt_config : OptimizationConfig)
    (epochs : list Z) (st st' : loop_state) :
  epoch_loop opt_config st epochs = Ok st' →
  Forall (λ rec, log_logger (ep_log rec) = i st) (trace st) →
  i st' = i st
  ∧ Forall (λ rec, log_logger (ep_log rec) = i st) (trace st').
Proof.
  revert st. induction epochs as [|n_epoch epochs IH]; intros st Hloop Htrace;
    simpl in Hloop.
  { by injection Hloop as <-. }
  apply rbind_Ok in Hloop as [st1 [Hstep Hloop]].
  apply epoch_step_inv in Hstep
    as (index_next & index & wf & mcmc0 & mcmc1 & mcmc & params' & opt_state'
        & clip' & stats & shared_params' & unique' & _ & _ & _ & _ & _ & _
        & _ & _ & ->).
  apply IH in Hloop; [done|]. simpl.
  apply Forall_app. split; [done|]. by repeat constructor.
Qed.

Lemma optimize_shared_loggers (shared_params : hk_params leaf_t)
    (wfs : list WaveFunctionData) (opt_config : OptimizationConfig)
    (initial_opt_state : option opt_state_t) (st : loop_state) :
  optimize_shared_state shared_params wfs opt_config initial_opt_state = Ok st →
  Forall (λ rec, log_logger (ep_log rec) = (length wfs - 1)%nat) (trace st).
Proof.
  unfold optimize_shared_state. intros Hrun.
  apply rbind_Ok in Hrun as [[wfs' last'] [Hburn Hrun]].
  apply burn_in_last in Hburn as [_ ->].
  destruct (last wfs) as [wf|]; [|discriminate].
  apply rbind_Ok in Hrun as [wfl [_ Hrun]].
  apply rbind_Ok in Hrun as [mcmc [_ Hrun]].
  apply rbind_Ok in Hrun as [opt_state0 [_ Hrun]].
  apply epoch_loop_loggers in Hrun as [_ Hrun]; [|by constructor].
  exact Hrun.
Qed.

Lemma optimize_shared_length (shared_params : hk_params leaf_t)
    (wfs : list WaveFunctionData) (opt_config : OptimizationConfig)
    (initial_opt_state : option opt_state_t) (t : list returned) :
  optimize_shared shared_params wfs opt_config initial_opt_state = Ok t →
  length t = 3%nat.
Proof.
  unfold optimize_shared. intros Ht.
  apply rbind_Ok in Ht as [st [_ Ht]]. by injection Ht as <-.
Qed.

(** C8. [optimize_shared] returns a tuple of three values, and with
    [n_epochs > 0] [process_molecule_shared] raises before any statement
    after the unpacking runs: the error does not depend on those
    statements, and when [init_wfs] and [optimize_shared] return, it is the
    unpacking that raises. *)
Theorem process_molecule_shared_unpacking
    (physical_configs : list physical_t) (opt_config : OptimizationConfig) :
  0 < n_epochs opt_config →
  (∀ shared_params wfs initial_opt_state t,
     optimize_shared shared_params wfs opt_config initial_opt_state = Ok t →
     length t = 3%nat)
  ∧ ∃ e,
      (∀ after otherwise,
         process_molecule_shared physical_configs opt_config after otherwise
         = Raise e)
      ∧ (∀ wfs shared_params t,
           init_wfs physical_configs opt_config = Ok (wfs, shared_params) →
           optimize_shared shared_params wfs opt_config None = Ok t →
           e = ValueError "not enough values to unpack (expected 4, got 3)").
Proof.
  intros Hn. split; [intros; by eapply optimize_shared_length|].
  unfold process_molecule_shared.
  destruct (init_wfs physical_configs opt_config) as [[wfs shared_params]|e];
    simpl.
  2:{ exists e. split; [done | intros; discriminate]. }
  destruct (Z.ltb_spec 0 (n_epochs opt_config)); [|lia].
  destruct (optimize_shared shared_params wfs opt_config None) as [t|e] eqn:Ht;
    simpl.
  2:{ exists e. split; [done|]. intros ??? [= <- <-] ?. congruence. }
  pose proof Ht as Hlen. apply optimize_shared_length in Hlen.
  destruct t as [|a [|b [|c [|d t]]]]; try discriminate. simpl.
  eexists. split; [done|]. intros ??? [= <- <-] ?. reflexivity.
Qed.
End OrchestratorFacts.

(** ** The laws of the element types *)

Import Devices Objects Examples.

Lemma SFeqb_not_nan (x y : spec_float) :
  SFeqb x y = true → x ≠ S754_nan ∧ y ≠ S754_nan.
Proof.
  unfold SFeqb. destruct x as [[]|[]| |[] mx ex], y as [[]|[]| |[] my ey];
    simpl; try congruence; intros _; split; congruence.
Qed.

Lemma float_add_zero (x : float) :
  Prim2SF (x + 0)%float
  = match Prim2SF x with S754_zero true => S754_zero false | sx => sx end.
Proof.
  rewrite FloatAxioms.add_spec.
  change (Prim2SF 0%float) with (S754_zero false). unfold SF64add, SFadd.
  destruct (Prim2SF x) as [[]|[]| |[] mx ex]; reflexivity.
Qed.

#[export] Instance float_laws : DtypeLaws float.
Proof.
  split; simpl; unfold same_float.
  - intros x. destruct (PrimFloat.is_nan x) eqn:Hx; [by right | left].
    unfold PrimFloat.is_nan in Hx. by destruct (PrimFloat.eqb x x).
  - intros x y z [Hxy|[Hx Hy]] [Hyz|[Hy' Hz]].
    + left. rewrite FloatAxioms.eqb_spec in *. by eapply SFeqb_trans.
    + rewrite FloatAxioms.eqb_spec in Hxy. apply SFeqb_not_nan in Hxy as [_ Hy].
      by apply is_nan_spec in Hy'.
    + rewrite FloatAxioms.eqb_spec in Hyz. apply SFeqb_not_nan in Hyz as [Hy' _].
      by apply is_nan_spec in Hy.
    + by right.
  - intros x. destruct (PrimFloat.is_nan x) eqn:Hx.
    + right. split; [|done]. apply is_nan_spec. rewrite float_add_zero.
      apply is_nan_spec in Hx. by rewrite Hx.
    + left. rewrite FloatAxioms.eqb_spec, float_add_zero.
      apply not_nan_spec in Hx.
      destruct (Prim2SF x) as [[]|[]| |[] mx ex] eqn:Hsx; try done;
        apply SFeqb_refl; congruence.
Qed.

#[export] Instance Z_laws : DtypeLaws Z.
Proof. split; simpl; intros; [done | congruence | lia]. Qed.

(** ** The claims on concrete inputs *)

(** Closes an equation between closed terms by evaluating both sides. *)
Ltac by_evaluation :=
  lazymatch goal with
  | |- @eq ?A _ ?r => vm_cast_no_check (@eq_refl A r)
  end.



Lemma get_index_unsupported_witness :
  scheduling_method (scheduling "random") ≠ "round_robin"
  ∧ scheduling_method (scheduling "random") ≠ "stddev"
  ∧ get_index 3 three_targets (scheduling "random")
    = Raise (TypeError "exceptions must derive from BaseException").
Proof.
  assert (H1 : scheduling_method (scheduling "random") ≠ "round_robin")
    by discriminate.
  assert (H2 : scheduling_method (scheduling "random") ≠ "stddev")
    by discriminate.
  split; [exact H1|]. split; [exact H2|].
  exact (get_index_unsupported 3 three_targets (scheduling "random") H1 H2).
Defined.

(** C9, against the claim as stated: the error that [get_index] raises for
    the method [random] does not mention [random]. *)
Lemma get_index_error_omits_method :
  ∃ e, get_index 3 three_targets (scheduling "random") = Raise e
       ∧ occurs_in "random" (exn_message e) = false.
Proof. eexists. split; reflexivity. Qed.

Lemma epoch_0_completes :
  epoch_step (optimization "round_robin" 1) start_state 0 = Ok after_epoch_0.
Proof. by_evaluation. Qed.

Lemma epoch_metrics_witness :
  epoch_step (optimization "round_robin" 1) start_state 0 = Ok after_epoch_0
  ∧ ∃ rec wf wf',
      trace after_epoch_0 = trace start_state ++ [rec]
      ∧ wfs start_state !! ep_index rec = Some wf
      ∧ wfs after_epoch_0 !! ep_index rec = Some wf'
      ∧ current_metrics wf' !! "E_std"
        = Some (Scalar (nanstd (log_E_loc_clipped (ep_log rec))))
      ∧ nanstd (log_E_loc_clipped (ep_log rec))
        = std (List.filter (λ x, negb (PrimFloat.is_nan x))
                           (log_E_loc_clipped (ep_log rec)))
      ∧ last_epoch_optimized wf' = 0
      ∧ n_opt_epochs wf' = n_opt_epochs wf + 1.
Proof.
  split; [exact epoch_0_completes|].
  exact (epoch_metrics (optimization "round_robin" 1) start_state
           after_epoch_0 0 epoch_0_completes).
Defined.

(** C5, against the claim as stated: with the clipped samples
    [1; infinity] the selected target's [E_mean] is the array of samples and
    its [E_std] is NaN, while the finite entries have mean 1 and standard
    deviation 0. *)
Lemma metrics_with_infinite_sample :
  rmap (λ st, (λ wf, (current_metrics wf !! "E_mean",
                      current_metrics wf !! "E_std")) <$> wfs st !! 0%nat)
       (epoch_step (optimization "round_robin" 1) start_state 0)
  = Ok (Some (Some (Array [1; infinity]%float), Some (Scalar nan)))
  ∧ Scalar (mean (finite_entries [1; infinity]%float)) = Scalar 1
  ∧ Scalar (std (finite_entries [1; infinity]%float)) = Scalar 0
  ∧ Array [1; infinity]%float ≠ Scalar 1
  ∧ Scalar nan ≠ Scalar 0.
Proof.
  split; [by_evaluation|].
  split; [by_evaluation|].
  split; [by_evaluation|].
  split; [discriminate|].
  intros Heq.
  apply (f_equal (λ m, match m with
                       | Scalar x => PrimFloat.is_nan x
                       | Array _ => false
                       end)) in Heq.
  vm_compute in Heq. discriminate.
Qed.



(** C7, evaluated on a run with two targets: the per-step log record of
    an epoch should go to the logger of the target selected at that epoch,
    and the code sends every record to the logger of the last target.  Each
    triple is the epoch, the index selected and the position in
    [wf_loggers] of the receiver. *)
Lemma log_step_goes_to_last_logger :
  rmap (λ st, List.map (λ r, (ep_n_epoch r, ep_index r, log_logger (ep_log r)))
                       (trace st)) round_robin_run
  = Ok [(0, 0%nat, 1%nat); (1, 1%nat, 1%nat)].
Proof. by_evaluation. Qed.

Lemma process_molecule_shared_unpacking_witness :
  0 < n_epochs (optimization "round_robin" 1)
  ∧ (∀ shared_params wfs initial_opt_state t,
       optimize_shared shared_params wfs (optimization "round_robin" 1)
                       initial_opt_state = Ok t →
       length t = 3%nat)
  ∧ ∃ e,
      (∀ after otherwise,
         process_molecule_shared [tt; tt] (optimization "round_robin" 1)
                                 after otherwise = Raise e)
      ∧ (∀ wfs shared_params t,
           init_wfs [tt; tt] (optimization "round_robin" 1)
             = Ok (wfs, shared_params) →
           optimize_shared shared_params wfs (optimization "round_robin" 1)
                           None = Ok t →
           e = ValueError "not enough values to unpack (expected 4, got 3)").
Proof.
  assert (Hn : 0 < n_epochs (optimization "round_robin" 1)) by (simpl; lia).
  split; [exact Hn|].
  exact (process_molecule_shared_unpacking [tt; tt]
           (optimization "round_robin" 1) Hn).
Defined.

(** On two physical configurations the run reaches the unpacking, which
    raises. *)
Lemma process_molecule_shared_raises :
  process_molecule_shared [tt; tt] (optimization "round_robin" 1)
    (λ _, Ok tt) (λ _ _, Ok tt)
  = Raise (ValueError "not enough values to unpack (expected 4, got 3)").
Proof. by_evaluation. Qed.

(** ** The default containers of [WaveFunctionData] *)

(** C10, evaluated on two records: distinct target records should not
    share a default container, and in the code two fresh records read the
    same dict object as their [checkpoints], and the same one as their
    [current_metrics]; an item set through one record is read through the
    other. *)
Lemma default_containers_are_shared :
  getattr class_and_heap.1 wf_0 "checkpoints" = Ok (PyRef 0)
  ∧ getattr class_and_heap.1 wf_1 "checkpoints" = Ok (PyRef 0)
  ∧ getattr class_and_heap.1 wf_0 "current_metrics" = Ok (PyRef 1)
  ∧ getattr class_and_heap.1 wf_1 "current_metrics" = Ok (PyRef 1)
  ∧ (do h <- setitem class_and_heap.1 wf_0 class_and_heap.2
               "checkpoints" "100" (PyInt 1);
     getitem class_and_heap.1 wf_1 h "checkpoints" "100") = Ok (PyInt 1)
  ∧ (do h <- setitem class_and_heap.1 wf_0 class_and_heap.2
               "current_metrics" "E_std" (PyInt 2);
     getitem class_and_heap.1 wf_1 h "current_metrics" "E_std") = Ok (PyInt 2).
Proof. repeat split; by_evaluation. Qed.

(** ** More on the parameter partitioner *)

Section PartitionerMore.
Context {V regex : Type}.
Variable re_compile : string → result regex.
Variable re_findall : regex → string → list string.
Implicit Types (structure a b : hk_params V) (l : list (string * string * V)).

Lemma NoDup_traverse structure : NoDup (traverse structure).
Proof.
  unfold traverse. apply NoDup_bind.
  - intros [m1 ms1] [m2 ms2] [[m n] v] H1 H2 Hy1 Hy2.
    apply elem_of_map_to_list in H1, H2.
    apply list_elem_of_bind in Hy1 as [[n1 v1] [Hy1 _]].
    apply list_elem_of_bind in Hy2 as [[n2 v2] [Hy2 _]].
    apply list_elem_of_singleton in Hy1, Hy2. simplify_eq. done.
  - intros [m ms] _. apply NoDup_bind.
    + intros [n1 v1] [n2 v2] y _ _ Hy1 Hy2.
      apply list_elem_of_singleton in Hy1, Hy2. congruence.
    + intros [n v] _. apply NoDup_singleton.
    + apply NoDup_map_to_list.
  - apply NoDup_map_to_list.
Qed.

(** The leaves of the dict that [write_leaves] builds from nothing are the
    leaves written, when no key is written twice. *)
Lemma traverse_write_leaves l :
  NoDup l → functional l → traverse (write_leaves l ∅) ≡ₚ l.
Proof.
  intros Hnd Hf. apply NoDup_Permutation; [apply NoDup_traverse | done |].
  intros [[m n] v]. rewrite elem_of_traverse. split.
  - intros Hleaf. destruct (decide ((m, n) ∈ (fst <$> l))) as [Hk|Hk].
    + apply list_elem_of_fmap in Hk as [[[m' n'] v'] [Heq Hin]].
      simpl in Heq. simplify_eq.
      rewrite (leaf_write_leaves_present l ∅ m' n' v' Hf Hin) in Hleaf.
      by simplify_eq.
    + rewrite leaf_write_leaves_absent in Hleaf; [done|].
      intros v0 Hin. apply Hk. apply list_elem_of_fmap. by exists (m, n, v0).
  - by apply leaf_write_leaves_present.
Qed.

Lemma filter_traverse_functional (P : string * string * V → Prop)
    `{!∀ x, Decision (P x)} structure :
  functional (filter P (traverse structure)).
Proof.
  intros m n v v' H1 H2.
  apply list_elem_of_filter in H1 as [_ H1].
  apply list_elem_of_filter in H2 as [_ H2].
  by eapply traverse_functional.
Qed.

Lemma traverse_hk_partition (predicate : string → string → V → bool) structure :
  traverse (hk_partition predicate structure).1
    ≡ₚ filter (goes_to predicate true) (traverse structure)
  ∧ traverse (hk_partition predicate structure).2
    ≡ₚ filter (goes_to predicate false) (traverse structure).
Proof.
  unfold hk_partition. rewrite hk_partition_write. simpl.
  split; apply traverse_write_leaves;
    (apply NoDup_filter, NoDup_traverse) || apply filter_traverse_functional.
Qed.

Lemma no_empty_module_hk_partition (predicate : string → string → V → bool)
    structure :
  no_empty_module (hk_partition predicate structure).1
  ∧ no_empty_module (hk_partition predicate structure).2.
Proof.
  unfold hk_partition. rewrite hk_partition_write. simpl.
  split; apply no_empty_module_write_leaves, no_empty_module_empty.
Qed.

Lemma leaf_is_Some_hk_partition (predicate : string → string → V → bool)
    structure m n v :
  (leaf (hk_partition predicate structure).1 m n = Some v
   ↔ leaf structure m n = Some v ∧ predicate m n v = true)
  ∧ (leaf (hk_partition predicate structure).2 m n = Some v
     ↔ leaf structure m n = Some v ∧ predicate m n v = false).
Proof.
  destruct (leaf_hk_partition predicate structure m n) as [-> ->].
  destruct (leaf structure m n) as [v'|]; simpl.
  - destruct (predicate m n v') eqn:Hp; split; split;
      try (intros [= <-]; by split); try (intros [[= <-] ?]; congruence);
      try discriminate.
  - split; split; try discriminate; by intros [? ?].
Qed.

(** X1. The two parts that [split_params] returns share no key, a leaf of
    the set that was split is a leaf of exactly one of them, with its value,
    they have no other leaf, and neither has a module without leaves. *)
Theorem split_params_partitions (structure : hk_params V)
    (module_names : list string) (r : regex) :
  re_compile ("(" ++ join "|" module_names ++ ")")%string = Ok r →
  ∃ shared unique,
    split_params re_compile re_findall structure module_names
      = Ok (shared, unique)
    ∧ ¬ share_key shared unique
    ∧ (∀ m n v, leaf structure m n = Some v
                ↔ leaf shared m n = Some v ∨ leaf unique m n = Some v)
    ∧ no_empty_module shared
    ∧ no_empty_module unique.
Proof.
  intros Hre. unfold split_params, get_params_filter_func.
  rewrite Hre. simpl.
  match goal with |- context [hk_partition ?f _] => set (filter_func := f) end.
  exists (hk_partition filter_func structure).1,
         (hk_partition filter_func structure).2.
  split; [by destruct (hk_partition filter_func structure)|].
  split; [|split; [|apply no_empty_module_hk_partition]].
  - intros (m & n & [v1 H1] & [v2 H2]).
    apply leaf_is_Some_hk_partition in H1 as [H1 Hp1].
    apply leaf_is_Some_hk_partition in H2 as [H2 Hp2].
    rewrite H1 in H2. simplify_eq. congruence.
  - intros m n v.
    destruct (leaf_is_Some_hk_partition filter_func structure m n v)
      as [-> ->].
    destruct (filter_func m n v); split;
      try (intros [[? ?]|[? ?]]; done); intros ?; [left | right]; done.
Qed.

(** X2. Splitting is idempotent: split again with the same patterns, the
    shared part is all shared and the unique part is all unique. *)
Theorem split_params_idempotent (structure shared unique : hk_params V)
    (module_names : list string) :
  split_params re_compile re_findall structure module_names
    = Ok (shared, unique) →
  split_params re_compile re_findall shared module_names = Ok (shared, ∅)
  ∧ split_params re_compile re_findall unique module_names = Ok (∅, unique).
Proof.
  unfold split_params. intros Hsplit.
  apply rbind_Ok in Hsplit as [filter_func [Hf Hsplit]]. rewrite Hf. simpl.
  injection Hsplit as Hsplit.
  assert (Hs : shared = (hk_partition filter_func structure).1)
    by (by rewrite Hsplit).
  assert (Hu : unique = (hk_partition filter_func structure).2)
    by (by rewrite Hsplit).
  clear Hsplit.
  assert (Hparts : ∀ part side,
            no_empty_module part →
            (∀ m n v, leaf part m n = Some v → filter_func m n v = side) →
            hk_partition filter_func part
            = if side then (part, ∅) else (∅, part)).
  { intros part side Hne Hside.
    pose proof (no_empty_module_hk_partition filter_func part) as [Hn1 Hn2].
    assert (Hl : ∀ m n,
               leaf (hk_partition filter_func part).1 m n
               = (if side then leaf part m n else None)
               ∧ leaf (hk_partition filter_func part).2 m n
                 = (if side then None else leaf part m n)).
    { intros m n.
      destruct (leaf_hk_partition filter_func part m n) as [-> ->].
      destruct (leaf part m n) as [v|] eqn:Hv; simpl; [|by destruct side].
      rewrite (Hside m n v Hv). by destruct side. }
    destruct (hk_partition filter_func part) as [p1 p2]. simpl in *.
    destruct side; f_equal;
      apply params_eq; try done; try apply no_empty_module_empty;
      intros m n; destruct (Hl m n) as [H1 H2];
      first [rewrite H1 | rewrite H2]; try done;
      unfold leaf; by rewrite lookup_empty. }
  split; f_equal.
  - apply (Hparts shared true).
    + subst shared. apply no_empty_module_hk_partition.
    + intros m n v Hv. subst shared.
      by apply leaf_is_Some_hk_partition in Hv as [_ Hp].
  - apply (Hparts unique false).
    + subst unique. apply no_empty_module_hk_partition.
    + intros m n v Hv. subst unique.
      by apply leaf_is_Some_hk_partition in Hv as [_ Hp].
Qed.

Lemma sum_filter_complement (f : string * string * V → nat)
    (predicate : string → string → V → bool) l :
  (sum_list_with f (filter (goes_to predicate true) l)
   + sum_list_with f (filter (goes_to predicate false) l))%nat
  = sum_list_with f l.
Proof.
  induction l as [|[[m n] v] l IH]; [done|].
  rewrite !filter_cons.
  destruct (predicate m n v) eqn:Hp.
  - rewrite decide_True by done.
    rewrite decide_False by (unfold goes_to; simpl; congruence).
    simpl. lia.
  - rewrite decide_False by (unfold goes_to; simpl; congruence).
    rewrite decide_True by done. simpl. lia.
Qed.

(** X3. Splitting keeps the number of parameters: the counts of the shared
    and of the unique part add up to the count of the set that was split. *)
Theorem split_params_number_of_params (size : V → nat)
    (structure shared unique : hk_params V) (module_names : list string) :
  split_params re_compile re_findall structure module_names
    = Ok (shared, unique) →
  (get_number_of_params size shared + get_number_of_params size unique)%nat
  = get_number_of_params size structure.
Proof.
  unfold split_params. intros Hsplit.
  apply rbind_Ok in Hsplit as [filter_func [_ Hsplit]].
  injection Hsplit as Hsplit.
  pose proof (traverse_hk_partition filter_func structure) as [H1 H2].
  rewrite Hsplit in H1, H2. simpl in H1, H2.
  unfold get_number_of_params, hk_tree_size. rewrite H1, H2.
  apply sum_filter_complement.
Qed.

(** X4. On partitions that share no key the order of the arguments of
    [merge_params] does not matter. *)
Theorem merge_params_disjoint_comm (a b : hk_params V) :
  ¬ share_key a b → merge_params a b = merge_params b a.
Proof.
  intros Hdisj. unfold merge_params. f_equal.
  apply params_eq; try apply no_empty_module_hk_merge.
  intros m n. rewrite !leaf_hk_merge2.
  destruct (leaf a m n) as [va|] eqn:Ha, (leaf b m n) as [vb|] eqn:Hb;
    try done.
  exfalso. apply Hdisj. exists m, n. rewrite Ha, Hb. eauto.
Qed.

(** X5. [merge_params] never returns a module without leaves: its result
    has none, and merging a structure with the empty one gives the
    structure back exactly when it has none. *)
Theorem merge_params_no_empty_module (a b : hk_params V) :
  (∀ merged, merge_params a b = Ok merged → no_empty_module merged)
  ∧ (merge_params a ∅ = Ok a ↔ no_empty_module a).
Proof.
  split.
  - intros merged [= <-]. apply no_empty_module_hk_merge.
  - split.
    + intros [= Heq]. rewrite <- Heq. apply no_empty_module_hk_merge.
    + intros Hne. unfold merge_params. f_equal.
      apply params_eq; [apply no_empty_module_hk_merge | done |].
      intros m n. rewrite leaf_hk_merge2. unfold leaf at 1.
      by rewrite lookup_empty.
Qed.
End PartitionerMore.

(** ** More on the scheduling policy *)

Section SchedulingMore.
Context `{Externals}.

Lemma argmax_int_from_lt (l : list Z) (mp : Z) (max_ind i : nat) :
  (max_ind < i)%nat → (argmax_int_from mp max_ind i l < i + length l)%nat.
Proof.
  revert mp max_ind i. induction l as [|x l IH]; intros mp max_ind i Hi; simpl.
  - lia.
  - destruct (mp <? x).
    + specialize (IH x i (S i)). lia.
    + specialize (IH mp max_ind (S i)). lia.
Qed.

Lemma argmax_float_from_lt (l : list float) (mp : float) (max_ind i : nat) :
  (max_ind < i)%nat → (argmax_float_from mp max_ind i l < i + length l)%nat.
Proof.
  revert mp max_ind i. induction l as [|x l IH]; intros mp max_ind i Hi; simpl.
  - lia.
  - destruct (negb (PrimFloat.leb x mp)).
    + destruct (PrimFloat.is_nan x); [lia|].
      specialize (IH x i (S i)). lia.
    + specialize (IH mp max_ind (S i)). lia.
Qed.

Lemma argmax_int_lt (l : list Z) (i : nat) :
  argmax_int l = Ok i → (i < length l)%nat.
Proof.
  destruct l as [|x l]; [discriminate|]. intros [= <-].
  pose proof (argmax_int_from_lt l x 0 1). simpl. lia.
Qed.

Lemma argmax_float_lt (l : list float) (i : nat) :
  argmax_float l = Ok i → (i < length l)%nat.
Proof.
  destruct l as [|x l]; [discriminate|]. unfold argmax_float.
  destruct (PrimFloat.is_nan x); intros [= <-]; simpl; [lia|].
  pose proof (argmax_float_from_lt l x 0 1). lia.
Qed.

Lemma rmapM_E_std_inv (wfs : list WaveFunctionData) (values : list metric) :
  rmapM (λ wf, dict_getitem (current_metrics wf) "E_std") wfs = Ok values →
  Forall2 (λ wf m, current_metrics wf !! "E_std" = Some m) wfs values.
Proof.
  revert values. induction wfs as [|wf wfs IH]; intros values Hm; simpl in Hm.
  - injection Hm as <-. constructor.
  - apply rbind_Ok in Hm as [m [Hwf Hm]].
    apply rbind_Ok in Hm as [ms [Hms Hm]]. injection Hm as <-.
    constructor; [|by apply IH].
    unfold dict_getitem in Hwf. by destruct (_ !! _); simplify_eq.
Qed.

Lemma py_mod_range (a b r : Z) : 0 ≤ b → py_mod a b = Ok r → 0 ≤ r < b.
Proof.
  unfold py_mod. intros Hb. destruct (Z.eqb_spec b 0); [discriminate|].
  intros [= <-]. apply Z.mod_pos_bound. lia.
Qed.

(** X6. An index that [get_index] returns is a position of the target
    list, when the [E_std] entries it reads are scalars: the [wfs[index]]
    that follows cannot fail. *)
Theorem get_index_in_range (n_epoch : Z) (wfs : list WaveFunctionData)
    (config : SharedOptimizationConfig) (index : Z) :
  Forall (λ wf, ∀ m, current_metrics wf !! "E_std" = Some m →
                     ∃ s, m = Scalar s) wfs →
  get_index n_epoch wfs config = Ok index →
  0 ≤ index < len wfs
  ∧ ∃ wf, py_getitem wfs index = Ok wf.
Proof.
  intros Hscalar Hidx.
  assert (Hrange : 0 ≤ index < len wfs).
  { unfold get_index in Hidx.
    destruct (String.eqb _ "round_robin").
    { eapply py_mod_range; [unfold len; lia | done]. }
    destruct (String.eqb _ "stddev"); [|discriminate].
    destruct (n_epoch <? len wfs * 10).
    { eapply py_mod_range; [unfold len; lia | done]. }
    destruct (existsb _ _).
    - apply rbind_Ok in Hidx as [i [Hi Hidx]]. injection Hidx as <-.
      apply argmax_int_lt in Hi. rewrite length_map in Hi. unfold len. lia.
    - apply rbind_Ok in Hidx as [values [Hvalues Hidx]].
      apply rbind_Ok in Hidx as [i [Hi Hidx]]. injection Hidx as <-.
      apply rmapM_E_std_inv in Hvalues.
      assert (Hlen : length (concat (List.map metric_elements values))
                     = length wfs).
      { clear Hi. induction Hvalues as [|wf m wfs values Hm _ IH]; [done|].
        apply Forall_cons in Hscalar as [Hwf Hscalar].
        destruct (Hwf m Hm) as [s ->]. simpl. by rewrite IH. }
      unfold np_argmax in Hi. destruct values as [|v values]; [discriminate|].
      destruct (forallb _ _); [|discriminate].
      apply argmax_float_lt in Hi. unfold len. lia. }
  split; [done|]. unfold py_getitem.
  destruct (Z.ltb_spec index 0); [lia|].
  destruct (Z.leb_spec 0 index); [|lia].
  destruct (Z.ltb_spec index (len wfs)); [|lia]. simpl.
  destruct (wfs !! Z.to_nat index) as [wf|] eqn:Hwf; [by exists wf|].
  apply lookup_ge_None in Hwf. unfold len in *. lia.
Qed.

(** X7. Round robin serves the targets in list order, once per round:
    at epoch [q * k + j], with [0 <= j < k], the index is [j], whatever the
    state of the targets. *)
Theorem get_index_round_robin_rounds (q j : Z) (wfs : list WaveFunctionData)
    (config : SharedOptimizationConfig) :
  scheduling_method config = "round_robin" →
  0 ≤ j < len wfs →
  get_index (q * len wfs + j) wfs config = Ok j.
Proof.
  intros Hm Hj. unfold get_index. rewrite Hm. simpl.
  unfold py_mod. destruct (Z.eqb_spec (len wfs) 0); [lia|]. f_equal.
  rewrite Z.add_comm, Z_mod_plus_full. apply Z.mod_small. lia.
Qed.


(** After the warm-up, with counters that fit: the two late branches. *)
Lemma get_index_stddev_late (n_epoch : Z) (wfs : list WaveFunctionData)
    (config : SharedOptimizationConfig) :
  scheduling_method config = "stddev" →
  10 * len wfs ≤ n_epoch →
  counters_fit n_epoch wfs →
  get_index n_epoch wfs config
  = if existsb (λ a, max_age config <? a) (List.map (age n_epoch) wfs)
    then do index <- argmax_int (List.map (age n_epoch) wfs);
         Ok (Z.of_nat index)
    else do stddevs <-
           rmapM (λ wf, dict_getitem (current_metrics wf) "E_std") wfs;
         do index <- np_argmax stddevs;
         Ok (Z.of_nat index).
Proof.
  intros Hm Hlate Hfit. unfold get_index. rewrite Hm. simpl.
  destruct (Z.ltb_spec n_epoch (len wfs * 10)); [lia|].
  by rewrite wf_ages_exact.
Qed.

Lemma no_starvation (max_age n_epoch : Z) (wfs : list WaveFunctionData) :
  Forall (λ wf, age n_epoch wf ≤ max_age) wfs →
  existsb (λ a, max_age <? a) (List.map (age n_epoch) wfs) = false.
Proof.
  intros Hyoung. destruct (existsb _ _) eqn:Hex; [|done].
  apply existsb_age in Hex. apply Exists_exists in Hex as [wf [Hin Hwf]].
  eapply Forall_forall in Hyoung; [|exact Hin]. lia.
Qed.

Lemma float_leb_nan (x y : float) :
  PrimFloat.is_nan x = true → PrimFloat.leb x y = false.
Proof.
  intros Hx. apply is_nan_spec in Hx.
  by rewrite FloatAxioms.leb_spec, Hx.
Qed.

Lemma argmax_float_from_first_nan (pre rest : list float) (x mp : float)
    (max_ind i : nat) :
  Forall (λ y, PrimFloat.is_nan y = false) pre →
  PrimFloat.is_nan x = true →
  argmax_float_from mp max_ind i (pre ++ x :: rest) = (i + length pre)%nat.
Proof.
  intros Hpre Hx. revert mp max_ind i.
  induction Hpre as [|y pre Hy _ IH]; intros mp max_ind i; simpl.
  - rewrite (float_leb_nan x mp Hx), Hx. simpl. lia.
  - rewrite Hy. destruct (negb (PrimFloat.leb y mp)); rewrite IH; lia.
Qed.

Lemma argmax_float_first_nan (l : list float) (i : nat) (x : float) :
  l !! i = Some x →
  PrimFloat.is_nan x = true →
  (∀ j y, (j < i)%nat → l !! j = Some y → PrimFloat.is_nan y = false) →
  argmax_float l = Ok i.
Proof.
  intros Hi Hx Hbefore. destruct l as [|x0 l]; [done|].
  unfold argmax_float. destruct i as [|i].
  - simpl in Hi. injection Hi as ->. by rewrite Hx.
  - rewrite (Hbefore 0%nat x0) by (done || lia). f_equal.
    simpl in Hi. rewrite <- (take_drop_middle l i x Hi).
    rewrite argmax_float_from_first_nan; try done.
    + rewrite length_take. apply lookup_lt_Some in Hi. lia.
    + apply Forall_forall. intros y Hy.
      apply list_elem_of_lookup in Hy as [j Hj].
      apply lookup_take_Some in Hj as [Hj Hlt].
      apply (Hbefore (S j) y); [lia | done].
Qed.

(** X9. A target whose [E_std] is NaN takes every turn: after the warm-up
    and with no target beyond [max_age], [get_index] returns the first
    index whose [E_std] is NaN. *)
Theorem get_index_nan_stddev (n_epoch : Z) (wfs : list WaveFunctionData)
    (config : SharedOptimizationConfig) (stddevs : list float) (i : nat)
    (x : float) :
  scheduling_method config = "stddev" →
  10 * len wfs ≤ n_epoch →
  counters_fit n_epoch wfs →
  Forall (λ wf, age n_epoch wf ≤ max_age config) wfs →
  Forall2 (λ wf s, current_metrics wf !! "E_std" = Some (Scalar s))
          wfs stddevs →
  stddevs !! i = Some x →
  PrimFloat.is_nan x = true →
  (∀ j y, (j < i)%nat → stddevs !! j = Some y → PrimFloat.is_nan y = false) →
  get_index n_epoch wfs config = Ok (Z.of_nat i).
Proof.
  intros Hm Hlate Hfit Hyoung Hstd Hi Hx Hbefore.
  rewrite get_index_stddev_late by done.
  rewrite no_starvation by done.
  rewrite (rmapM_E_std wfs stddevs Hstd). simpl.
  rewrite np_argmax_scalars by (by intros ->).
  by rewrite (argmax_float_first_nan stddevs i x).
Qed.

Lemma rmapM_E_std_missing (wfs : list WaveFunctionData) :
  Exists (λ wf, current_metrics wf !! "E_std" = None) wfs →
  rmapM (λ wf, dict_getitem (current_metrics wf) "E_std") wfs
  = Raise (KeyError "E_std").
Proof.
  induction wfs as [|wf wfs IH]; intros Hex; [by inversion Hex|].
  simpl. unfold dict_getitem at 1.
  destruct (current_metrics wf !! "E_std") as [m|] eqn:Hwf; simpl; [|done].
  rewrite IH; [done|]. inversion Hex; simplify_eq; done.
Qed.

(** X10. After the warm-up and with no target beyond [max_age], a target
    without an [E_std] entry makes [get_index] raise [KeyError]. *)
Theorem get_index_missing_E_std (n_epoch : Z) (wfs : list WaveFunctionData)
    (config : SharedOptimizationConfig) :
  scheduling_method config = "stddev" →
  10 * len wfs ≤ n_epoch →
  counters_fit n_epoch wfs →
  Forall (λ wf, age n_epoch wf ≤ max_age config) wfs →
  Exists (λ wf, current_metrics wf !! "E_std" = None) wfs →
  get_index n_epoch wfs config = Raise (KeyError "E_std").
Proof.
  intros Hm Hlate Hfit Hyoung Hmissing.
  rewrite get_index_stddev_late by done.
  rewrite no_starvation by done.
  by rewrite rmapM_E_std_missing.
Qed.
End SchedulingMore.

(** ** More about the optimisation loop: no target starves *)

Section StarvationFacts.
Context `{Externals}.








(** *** The warm-up *)



(** *** From the warm-up to the bound *)





(** *** The loop *)


Lemma epoch_loop_invariant (opt_config : OptimizationConfig)
    (inv : Z → loop_state → Prop) (first : Z) (count : nat) :
  (∀ n st st', first ≤ n < first + Z.of_nat count → inv n st →
     epoch_step opt_config st n = Ok st' → inv (n + 1) st') →
  ∀ st st', inv first st →
    epoch_loop opt_config st (seqZ first (Z.of_nat count)) = Ok st' →
    inv (first + Z.of_nat count) st'.
Proof.
  revert first. induction count as [|count IH]; intros first Hstep st st' Hinv.
  - simpl. intros [= <-]. by rewrite Z.add_0_r.
  - rewrite seqZ_cons by lia. simpl. intros Hrun.
    apply rbind_Ok in Hrun as [st1 [Hst1 Hrun]].
    replace (Z.pred (Z.of_nat (S count))) with (Z.of_nat count) in Hrun by lia.
    replace (first + Z.of_nat (S count))
      with (Z.succ first + Z.of_nat count) by lia.
    eapply (IH (Z.succ first)); [| |exact Hrun].
    + intros n s s' Hn. apply Hstep. lia.
    + replace (Z.succ first) with (first + 1) by lia.
      eapply Hstep; [|exact Hinv|exact Hst1]. lia.
Qed.

Lemma py_range_seqZ (n : Z) : py_range n = seqZ 0 n.
Proof.
  unfold py_range, seqZ. apply map_ext. intros k. lia.
Qed.

End StarvationFacts.

(** ** More about the optimisation loop: what a run keeps *)

Section OrchestratorMore.
Context `{Externals}.

Lemma get_index_nonneg (n_epoch : Z) (wfs : list WaveFunctionData)
    (config : SharedOptimizationConfig) (index_next : Z) :
  get_index n_epoch wfs config = Ok index_next → 0 ≤ index_next.
Proof.
  unfold get_index.
  assert (Hmod : ∀ z, py_mod n_epoch (len wfs) = Ok z → 0 ≤ z).
  { unfold py_mod. intros z. destruct (Z.eqb_spec (len wfs) 0); [done|].
    intros [= <-]. apply Z.mod_pos_bound. unfold len in *. lia. }
  destruct (String.eqb _ "round_robin"); [apply Hmod|].
  destruct (String.eqb _ "stddev"); [|done].
  destruct (n_epoch <? _); [apply Hmod|].
  destruct (existsb _ _).
  - destruct (argmax_int _); simpl; [|done]. intros [= <-]. lia.
  - destruct (rmapM _ _); simpl; [|done].
    destruct (np_argmax _); simpl; [|done]. intros [= <-]. lia.
Qed.

(** What an epoch changes: one target, at the index that [get_index]
    returned, and one more record in the trace. *)
Lemma epoch_step_frame (opt_config : OptimizationConfig) (st st' : loop_state)
    (n_epoch : Z) :
  epoch_step opt_config st n_epoch = Ok st' →
  ∃ index wf wf' rec,
    get_index n_epoch (wfs st) (shared_optimization opt_config)
    = Ok (Z.of_nat index)
    ∧ wfs st !! index = Some wf
    ∧ wfs st' = <[index := wf']> (wfs st)
    ∧ physical wf' = physical wf
    ∧ fixed_params wf' = fixed_params wf
    ∧ loggers wf' = loggers wf
    ∧ is_Some (mcmc_state wf')
    ∧ n_opt_epochs wf' = n_opt_epochs wf + 1
    ∧ last_epoch_optimized wf' = n_epoch
    ∧ trace st' = trace st ++ [rec]
    ∧ ep_n_epoch rec = n_epoch
    ∧ ep_index rec = index.
Proof.
  intros Hstep. apply epoch_step_inv in Hstep
    as (index_next & index & wf & mcmc0 & mcmc1 & mcmc & params' & opt_state'
        & clip' & stats & shared_params' & unique' & Hidx & Hpos & Hwf & _ & _
        & _ & _ & _ & ->).
  assert (index_next = Z.of_nat index) as ->.
  { apply get_index_nonneg in Hidx. unfold py_position in Hpos.
    destruct (Z.ltb_spec index_next 0); [lia|].
    destruct ((0 <=? _) && _); [|done]. injection Hpos. lia. }
  eexists index, wf, _, _. simpl. by repeat split.
Qed.

(** What the burn-in does to each target. *)
Lemma burn_in_frame (shared_params : hk_params leaf_t)
    (opt_config : OptimizationConfig) (wfs wfs' : list WaveFunctionData)
    (i0 : nat) (last0 last' : option (nat * hk_params leaf_t)) :
  burn_in shared_params opt_config i0 wfs last0 = Ok (wfs', last') →
  Forall2 (λ wf wf',
             physical wf' = physical wf
             ∧ fixed_params wf' = replicate_fixed (fixed_params wf)
             ∧ unique_trainable_params wf' = unique_trainable_params wf
             ∧ loggers wf' = loggers wf
             ∧ current_metrics wf' = current_metrics wf
             ∧ n_opt_epochs wf' = n_opt_epochs wf
             ∧ last_epoch_optimized wf' = last_epoch_optimized wf
             ∧ is_Some (mcmc_state wf')
             ∧ is_Some (clipping_params wf')) wfs wfs'.
Proof.
  revert wfs' i0 last0.
  induction wfs as [|wf wfs IH]; intros wfs' i0 last0 Hb; simpl in Hb.
  { injection Hb as <- <-. constructor. }
  apply rbind_Ok in Hb as [[wf1 params1] [Hwf Hb]].
  apply rbind_Ok in Hb as [[rest' last1] [Hrest Hb]].
  injection Hb as <- <-. constructor; [|by eapply IH].
  unfold burn_in_wf in Hwf.
  apply rbind_Ok in Hwf as [mcmc0 [_ Hwf]].
  unfold merge_params in Hwf. simpl in Hwf.
  apply rbind_Ok in Hwf as [mcmc [_ Hwf]]. injection Hwf as <- _.
  simpl. repeat split; by eexists.
Qed.

(** The parts of a run of [optimize_shared]. *)
Lemma optimize_shared_state_inv (shared_params : hk_params leaf_t)
    (wfs : list WaveFunctionData) (opt_config : OptimizationConfig)
    (initial_opt_state : option opt_state_t) (st : loop_state) :
  optimize_shared_state shared_params wfs opt_config initial_opt_state = Ok st →
  ∃ wfs1 i1 params1 opt_state1,
    burn_in shared_params opt_config 0 wfs None = Ok (wfs1, Some (i1, params1))
    ∧ wfs ≠ []
    ∧ epoch_loop opt_config
        {| wfs := wfs1; shared_params := shared_params; params := params1;
           i := i1; opt_state := opt_state1; trace := [] |}
        (py_range (n_epochs opt_config * len wfs)) = Ok st.
Proof.
  unfold optimize_shared_state. intros Hrun.
  apply rbind_Ok in Hrun as [[wfs1 last1] [Hburn Hrun]].
  destruct last1 as [[i1 params1]|]; [|done].
  apply rbind_Ok in Hrun as [wfl [_ Hrun]].
  apply rbind_Ok in Hrun as [mcmc [_ Hrun]].
  apply rbind_Ok in Hrun as [opt_state0 [_ Hrun]].
  eexists wfs1, i1, params1, _. split; [done|]. split; [|exact Hrun].
  intros ->. simpl in Hburn. by injection Hburn.
Qed.

(** What a run of the loop changes, read off its trace. *)
Lemma epoch_loop_counters (opt_config : OptimizationConfig) (epochs : list Z)
    (st st' : loop_state) :
  epoch_loop opt_config st epochs = Ok st' →
  ∃ recs,
    trace st' = trace st ++ recs
    ∧ List.map ep_n_epoch recs = epochs
    ∧ length (wfs st') = length (wfs st)
    ∧ ∀ i wf, wfs st !! i = Some wf →
        ∃ wf', wfs st' !! i = Some wf'
          ∧ physical wf' = physical wf
          ∧ fixed_params wf' = fixed_params wf
          ∧ loggers wf' = loggers wf
          ∧ (is_Some (mcmc_state wf) → is_Some (mcmc_state wf'))
          ∧ n_opt_epochs wf'
            = n_opt_epochs wf
              + Z.of_nat (length (filter (λ rec, ep_index rec = i) recs))
          ∧ last_epoch_optimized wf'
            = match last (filter (λ rec, ep_index rec = i) recs) with
              | Some rec => ep_n_epoch rec
              | None => last_epoch_optimized wf
              end.
Proof.
  revert st. induction epochs as [|n epochs IH]; intros st Hrun; simpl in Hrun.
  { injection Hrun as <-. exists []. rewrite app_nil_r.
    repeat split; try done. intros i wf Hwf. exists wf. simpl.
    repeat split; try done. lia. }
  apply rbind_Ok in Hrun as [st1 [Hstep Hrun]].
  apply epoch_step_frame in Hstep
    as (index & wf0 & wf0' & rec & _ & Hwf0 & Hwfs1 & Hphys & Hfixed & Hlog
        & Hmcmc & Hn & Hlast & Htrace & Hrec & Hindex).
  apply IH in Hrun as (recs & Htrace' & Hepochs & Hlen & Hall).
  exists (rec :: recs). rewrite Htrace', Htrace, <- app_assoc. simpl.
  rewrite Hrec, Hepochs, Hlen, Hwfs1, length_insert.
  repeat split; try done. intros i wf Hwf. rewrite filter_cons.
  destruct (decide (i = index)) as [->|Hne].
  - rewrite Hwf0 in Hwf. injection Hwf as <-.
    destruct (Hall index wf0') as (wf' & Hwf' & ? & ? & ? & ? & Hn' & Hlast').
    { rewrite Hwfs1. apply list_lookup_insert_eq. by eapply lookup_lt_Some. }
    exists wf'. rewrite decide_True by done. rewrite last_cons.
    split; [done|]. split; [congruence|]. split; [congruence|].
    split; [congruence|]. split; [intros _; auto|].
    split; [simpl length; lia|].
    rewrite Hlast'. destruct (last _); [done | congruence].
  - destruct (Hall i wf) as (wf' & Hwf' & ? & ? & ? & ? & Hn' & Hlast').
    { rewrite Hwfs1. by rewrite list_lookup_insert_ne. }
    exists wf'. rewrite decide_False by congruence. by repeat split.
Qed.

(** X12. A run of [optimize_shared] completes only on a list of targets
    that is not empty.  Its epochs are [0, 1, ...] in order, one record
    each, [n_epochs * len(wfs)] of them; the run keeps each target's
    physical configuration and loggers, replicates its fixed parameters
    once, and leaves it with a sampler state. *)
Theorem optimize_shared_epochs_in_order (shared_params : hk_params leaf_t)
    (wfs : list WaveFunctionData) (opt_config : OptimizationConfig)
    (initial_opt_state : option opt_state_t) (st : loop_state) :
  optimize_shared_state shared_params wfs opt_config initial_opt_state = Ok st →
  wfs ≠ []
  ∧ List.map ep_n_epoch (trace st) = py_range (n_epochs opt_config * len wfs)
  ∧ Forall2 (λ wf wf',
               physical wf' = physical wf
               ∧ loggers wf' = loggers wf
               ∧ fixed_params wf' = replicate_fixed (fixed_params wf)
               ∧ is_Some (mcmc_state wf')) wfs (Shared.wfs st).
Proof.
  intros Hrun. apply optimize_shared_state_inv in Hrun
    as (wfs1 & i1 & params1 & opt_state1 & Hburn & Hwfs & Hloop).
  apply burn_in_frame in Hburn.
  apply epoch_loop_counters in Hloop as (recs & Htrace & Hepochs & Hlen & Hall).
  simpl in *. split; [done|]. split; [by rewrite Htrace|].
  apply Forall2_same_length_lookup_2.
  { apply Forall2_length in Hburn. lia. }
  intros i wf wf' Hwf Hwf'.
  destruct (Forall2_lookup_l _ _ _ _ _ Hburn Hwf)
    as (wf1 & Hwf1 & ? & ? & _ & ? & _ & _ & _ & Hmcmc & _).
  destruct (Hall i wf1 Hwf1) as (wf2 & Hwf2 & ? & ? & ? & Hmcmc' & _).
  rewrite Hwf' in Hwf2. injection Hwf2 as <-.
  repeat split; try congruence. by apply Hmcmc'.
Qed.

(** X13. The counters agree with the trace: after a completed run a
    target's [n_opt_epochs] has grown by the number of epochs that
    selected it, and its [last_epoch_optimized] is the last of them (the
    value it had when no epoch selected it). *)
Theorem optimize_shared_counters (shared_params : hk_params leaf_t)
    (wfs : list WaveFunctionData) (opt_config : OptimizationConfig)
    (initial_opt_state : option opt_state_t) (st : loop_state)
    (i : nat) (wf : WaveFunctionData) :
  optimize_shared_state shared_params wfs opt_config initial_opt_state = Ok st →
  wfs !! i = Some wf →
  ∃ wf', Shared.wfs st !! i = Some wf'
    ∧ n_opt_epochs wf'
      = n_opt_epochs wf
        + Z.of_nat (length (filter (λ rec, ep_index rec = i) (trace st)))
    ∧ last_epoch_optimized wf'
      = match last (filter (λ rec, ep_index rec = i) (trace st)) with
        | Some rec => ep_n_epoch rec
        | None => last_epoch_optimized wf
        end.
Proof.
  intros Hrun Hwf. apply optimize_shared_state_inv in Hrun
    as (wfs1 & i1 & params1 & opt_state1 & Hburn & _ & Hloop).
  apply burn_in_frame in Hburn.
  apply epoch_loop_counters in Hloop as (recs & Htrace & Hepochs & Hlen & Hall).
  simpl in *.
  destruct (Forall2_lookup_l _ _ _ _ _ Hburn Hwf)
    as (wf1 & Hwf1 & _ & _ & _ & _ & _ & Hn & Hlast & _).
  destruct (Hall i wf1 Hwf1) as (wf2 & Hwf2 & _ & _ & _ & _ & Hn' & Hlast').
  exists wf2. rewrite Htrace. split; [done|]. split; [congruence|].
  by rewrite Hlast', Hlast.
Qed.

Lemma get_index_round_robin_mod (n_epoch : Z) (wfs : list WaveFunctionData)
    (config : SharedOptimizationConfig) (index_next : Z) :
  scheduling_method config = "round_robin" →
  get_index n_epoch wfs config = Ok index_next →
  index_next = n_epoch mod len wfs ∧ 0 < len wfs.
Proof.
  intros Hm. unfold get_index. rewrite Hm. simpl.
  unfold py_mod. destruct (Z.eqb_spec (len wfs) 0); [done|].
  intros [= <-]. unfold len in *. lia.
Qed.

(** X14. Round robin is fair: a completed run of [optimize_shared] with
    the [round_robin] method optimises every target for exactly [n_epochs]
    epochs. *)
Theorem optimize_shared_round_robin_epochs (shared_params : hk_params leaf_t)
    (wfs : list WaveFunctionData) (opt_config : OptimizationConfig)
    (initial_opt_state : option opt_state_t) (st : loop_state) :
  scheduling_method (shared_optimization opt_config) = "round_robin" →
  0 ≤ n_epochs opt_config →
  optimize_shared_state shared_params wfs opt_config initial_opt_state = Ok st →
  Forall2 (λ wf wf', n_opt_epochs wf' = n_opt_epochs wf + n_epochs opt_config)
          wfs (Shared.wfs st).
Proof.
  intros Hm He Hrun. apply optimize_shared_state_inv in Hrun
    as (wfs1 & i1 & params1 & opt_state1 & Hburn & Hwfs & Hloop).
  apply burn_in_frame in Hburn. pose proof (Forall2_length _ _ _ Hburn) as Hlen1.
  set (k := len wfs) in *.
  assert (Hk : 0 < k) by (unfold k, len; destruct wfs; [done | simpl; lia]).
  rewrite py_range_seqZ in Hloop.
  rewrite <- (Z2Nat.id (n_epochs opt_config * k)) in Hloop by lia.
  apply (epoch_loop_invariant opt_config
    (λ n s, length (Shared.wfs s) = length wfs1
            ∧ ∃ q r, n = q * k + r ∧ 0 ≤ r < k
                ∧ ∀ i wf1 wf, wfs1 !! i = Some wf1 →
                    Shared.wfs s !! i = Some wf →
                    n_opt_epochs wf
                    = n_opt_epochs wf1 + q
                      + (if Z.of_nat i <? r then 1 else 0))) in Hloop.
  - destruct Hloop as (Hlen & q & r & Hqr & Hr & Hall).
    rewrite Z2Nat.id in Hqr by lia.
    assert (q = n_epochs opt_config) as ->
      by (destruct (Z.lt_trichotomy q (n_epochs opt_config)) as [|[|]]; nia).
    assert (r = 0) as -> by lia.
    apply Forall2_same_length_lookup_2; [lia|].
    intros i wf wf' Hwf Hwf'.
    destruct (Forall2_lookup_l _ _ _ _ _ Hburn Hwf)
      as (wf1 & Hwf1 & _ & _ & _ & _ & _ & Hn & _).
    rewrite (Hall i wf1 wf' Hwf1 Hwf'), Hn.
    destruct (Z.ltb_spec (Z.of_nat i) 0); lia.
  - intros n s s' Hn (Hlen & q & r & Hqr & Hr & Hall) Hstep.
    apply epoch_step_frame in Hstep
      as (index & wf0 & wf0' & rec & Hidx & Hwf0 & Hwfs' & _ & _ & _ & _
          & Hopt & _).
    apply get_index_round_robin_mod in Hidx as [Hidx _]; [|done].
    assert (Hks : len (Shared.wfs s) = k) by (unfold k, len; lia).
    rewrite Hks, Hqr, Z.add_comm, Z.mod_add, Z.mod_small in Hidx by lia.
    rewrite Hwfs', length_insert. split; [done|].
    destruct (Z.eq_dec (r + 1) k) as [Hwrap|Hnext].
    + exists (q + 1), 0. split; [lia|]. split; [lia|].
      intros i wf1 wf Hwf1 Hwf.
      destruct (Z.ltb_spec (Z.of_nat i) 0); [lia|].
      destruct (decide (i = index)) as [->|Hne].
      * rewrite list_lookup_insert_eq in Hwf by (by eapply lookup_lt_Some).
        injection Hwf as <-. rewrite Hopt, (Hall index wf1 wf0 Hwf1 Hwf0).
        destruct (Z.ltb_spec (Z.of_nat index) r); lia.
      * rewrite list_lookup_insert_ne in Hwf by done.
        rewrite (Hall i wf1 wf Hwf1 Hwf).
        apply lookup_lt_Some in Hwf. unfold len in *.
        destruct (Z.ltb_spec (Z.of_nat i) r); lia.
    + exists q, (r + 1). split; [lia|]. split; [lia|].
      intros i wf1 wf Hwf1 Hwf.
      destruct (decide (i = index)) as [->|Hne].
      * rewrite list_lookup_insert_eq in Hwf by (by eapply lookup_lt_Some).
        injection Hwf as <-. rewrite Hopt, (Hall index wf1 wf0 Hwf1 Hwf0).
        destruct (Z.ltb_spec (Z.of_nat index) r),
                 (Z.ltb_spec (Z.of_nat index) (r + 1)); lia.
      * rewrite list_lookup_insert_ne in Hwf by done.
        rewrite (Hall i wf1 wf Hwf1 Hwf).
        destruct (Z.ltb_spec (Z.of_nat i) r),
                 (Z.ltb_spec (Z.of_nat i) (r + 1)); lia.
  - simpl. split; [done|]. exists 0, 0. split; [lia|]. split; [lia|].
    intros i wf1 wf Hwf1 Hwf. simpl in Hwf. rewrite Hwf1 in Hwf.
    injection Hwf as <-. destruct (Z.ltb_spec (Z.of_nat i) 0); lia.
Qed.

(** *** [init_wfs] *)

Lemma init_wf_inv (shared_modules : list string) (i : nat) (p : physical_t)
    (wf : WaveFunctionData) (new_shared_params : hk_params leaf_t) :
  init_wf shared_modules i p = Ok (wf, new_shared_params) →
  ∃ new_trainable_params,
    build_log_psi_squared p = Ok (new_trainable_params, fixed_params wf)
    ∧ split_params re_compile re_findall new_trainable_params shared_modules
      = Ok (new_shared_params, unique_trainable_params wf)
    ∧ build_loggers i = Ok (loggers wf)
    ∧ physical wf = p
    ∧ mcmc_state wf = None
    ∧ clipping_params wf = None
    ∧ current_metrics wf = ∅
    ∧ n_opt_epochs wf = 0
    ∧ last_epoch_optimized wf = 0.
Proof.
  unfold init_wf. intros Hwf.
  apply rbind_Ok in Hwf as [[tp fixed] [Hbuild Hwf]].
  apply rbind_Ok in Hwf as [[sp unique] [Hsplit Hwf]].
  apply rbind_Ok in Hwf as [loggers [Hlog Hwf]].
  injection Hwf as <- <-. by exists tp.
Qed.

Lemma init_wfs_loop_inv (shared_modules : list string) (i0 : nat)
    (physical_configs : list physical_t)
    (shared0 shared' : option (hk_params leaf_t))
    (wfs : list WaveFunctionData) :
  init_wfs_loop shared_modules i0 physical_configs shared0 = Ok (wfs, shared') →
  Forall2 (λ ip wf, ∃ new_shared_params,
             init_wf shared_modules ip.1 ip.2 = Ok (wf, new_shared_params)
             ∧ (ip.1 = 0%nat → shared' = Some new_shared_params))
          (imap (λ j p, ((i0 + j)%nat, p)) physical_configs) wfs
  ∧ ((i0 ≠ 0%nat ∨ physical_configs = []) → shared' = shared0).
Proof.
  revert i0 shared0 wfs.
  induction physical_configs as [|p rest IH]; intros i0 shared0 wfs Hloop;
    simpl in Hloop.
  { injection Hloop as <- <-. split; [constructor | done]. }
  apply rbind_Ok in Hloop as [[wf new_sp] [Hwf Hloop]].
  apply rbind_Ok in Hloop as [[wfs' sp'] [Hrest Hloop]].
  injection Hloop as <- <-. apply IH in Hrest as [Hall Hshared].
  specialize (Hshared (or_introl (Nat.neq_succ_0 i0))). split.
  - simpl. constructor.
    + simpl. rewrite Nat.add_0_r. exists new_sp. split; [done|].
      intros ->. by rewrite Hshared.
    + rewrite (imap_ext _ (λ j p, ((S i0 + j)%nat, p))); [done|].
      intros j x _. simpl. f_equal. lia.
  - intros [Hi0|]; [|done]. rewrite Hshared.
    by destruct i0.
Qed.

(** X15. [init_wfs] returns only for a list of configurations that is not
    empty.  It then returns one fresh record for each configuration, in
    order: the record holds the configuration, the fixed parameters and
    the unique part of the parameters built for it, the loggers built for
    its index, no sampler state, no clipping parameters, no metrics and
    counters at 0.  The shared parameters returned are the shared part of
    the parameters of the first configuration; the shared parts of the
    others are dropped. *)
Theorem init_wfs_fresh (physical_configs : list physical_t)
    (opt_config : OptimizationConfig) (wfs : list WaveFunctionData)
    (shared_params : hk_params leaf_t) :
  init_wfs physical_configs opt_config = Ok (wfs, shared_params) →
  physical_configs ≠ []
  ∧ length wfs = length physical_configs
  ∧ ∀ (i : nat) p, physical_configs !! i = Some p →
      ∃ wf new_trainable_params new_shared_params,
        wfs !! i = Some wf
        ∧ build_log_psi_squared p = Ok (new_trainable_params, fixed_params wf)
        ∧ split_params re_compile re_findall new_trainable_params
            (shared_modules (shared_optimization opt_config))
          = Ok (new_shared_params, unique_trainable_params wf)
        ∧ (i = 0%nat → shared_params = new_shared_params)
        ∧ build_loggers i = Ok (loggers wf)
        ∧ physical wf = p
        ∧ mcmc_state wf = None
        ∧ clipping_params wf = None
        ∧ current_metrics wf = ∅
        ∧ n_opt_epochs wf = 0
        ∧ last_epoch_optimized wf = 0.
Proof.
  unfold init_wfs. intros Hinit.
  apply rbind_Ok in Hinit as [[wfs' [sp|]] [Hloop Hinit]]; [|done].
  injection Hinit as <- <-.
  apply init_wfs_loop_inv in Hloop as [Hall Hshared]. split.
  { intros ->. by specialize (Hshared (or_intror eq_refl)). }
  split.
  { apply Forall2_length in Hall. by rewrite length_imap in Hall. }
  intros i p Hp.
  assert (Hip : imap (λ j p, ((0 + j)%nat, p)) physical_configs !! i
                = Some (i, p)).
  { by rewrite list_lookup_imap, Hp. }
  destruct (Forall2_lookup_l _ _ _ _ _ Hall Hip) as (wf & Hwf & nsp & Hwfi & Hfirst).
  simpl in *. apply init_wf_inv in Hwfi as (tp & Hbuild & Hsplit & Hrest).
  exists wf, tp, nsp. split; [done|]. split; [done|]. split; [done|].
  split; [|done]. intros Hi. specialize (Hfirst Hi). congruence.
Qed.

(** *** The whole of [process_molecule_shared] *)

Lemma init_wfs_nonempty (physical_configs : list physical_t)
    (opt_config : OptimizationConfig) (wfs : list WaveFunctionData)
    (shared_params : hk_params leaf_t) :
  init_wfs physical_configs opt_config = Ok (wfs, shared_params) → wfs ≠ [].
Proof.
  unfold init_wfs. intros Hinit.
  apply rbind_Ok in Hinit as [[wfs' [sp|]] [Hloop Hinit]]; [|done].
  injection Hinit as <- <-.
  apply init_wfs_loop_inv in Hloop as [Hall Hshared].
  intros ->. apply Forall2_length in Hall. rewrite length_imap in Hall.
  destruct physical_configs; [|done].
  by specialize (Hshared (or_intror eq_refl)).
Qed.

(** X22. [process_molecule_shared] never returns: whatever the
    configurations and the statements that follow, it raises.  When
    [init_wfs] returns and no epoch is asked for, the error is the
    [NameError] of [_log_weights]. *)
Theorem process_molecule_shared_never_returns
    (physical_configs : list physical_t) (opt_config : OptimizationConfig)
    (after : returned * returned * returned * returned → result unit)
    (evaluation : list WaveFunctionData → result unit) :
  (∃ e, process_molecule_shared physical_configs opt_config after
          (without_optimization evaluation) = Raise e)
  ∧ (∀ wfs shared_params,
       init_wfs physical_configs opt_config = Ok (wfs, shared_params) →
       n_epochs opt_config ≤ 0 →
       process_molecule_shared physical_configs opt_config after
         (without_optimization evaluation)
       = Raise (NameError "_log_weights")).
Proof.
  unfold process_molecule_shared.
  destruct (init_wfs physical_configs opt_config) as [[wfs shared_params]|e]
    eqn:Hinit; simpl.
  2:{ split; [by exists e | intros; discriminate]. }
  apply init_wfs_nonempty in Hinit.
  assert (Hlog : without_optimization evaluation wfs shared_params
                 = Raise (NameError "_log_weights")).
  { unfold without_optimization. by destruct wfs. }
  destruct (Z.ltb_spec 0 (n_epochs opt_config)).
  - split; [|intros; lia].
    destruct (optimize_shared shared_params wfs opt_config None) as [t|e]
      eqn:Ht; simpl; [|by exists e].
    apply optimize_shared_length in Ht.
    destruct t as [|a [|b [|c [|d t]]]]; try discriminate. simpl.
    by eexists.
  - rewrite Hlog. split; [by eexists|]. by intros ?? [= <- <-] _.
Qed.
End OrchestratorMore.

(** ** More about the replication layer: the round trip *)

Section RoundTrip.
Context {E : Type} `{Dtype E}.



End RoundTrip.

(** ** Gathering from the devices *)

Section GatherFacts.
Context {E : Type} `{Dtype E}.

Lemma tree_leaves_map {A B : Type} (f : A → B) (t : pytree A) :
  tree_leaves (tree_map f t) = List.map f (tree_leaves t).
Proof.
  induction t as [a|children IH] using pytree_induction; simpl; [done|].
  induction IH as [|t l Ht _ IHl]; simpl; [done|].
  by rewrite Ht, IHl, map_app.
Qed.

Lemma forallb_ext_In {A : Type} (f g : A → bool) (l : list A) :
  (∀ a, In a l → f a = g a) → forallb f l = forallb g l.
Proof.
  induction l as [|a l IH]; intros Hfg; simpl; [done|].
  rewrite Hfg by (by left). f_equal. apply IH. intros b Hb. apply Hfg. by right.
Qed.

(** Every device ends with the same gathered data. *)
Lemma pad_data_slice (device_count i : nat) (x : sharded) :
  (i < length x)%nat →
  nth i (_pad_data device_count x) []
  = psum_sharded (imap (pad_local device_count) x).
Proof. intros Hi. unfold _pad_data. by apply nth_const_map. Qed.

(** X18. [is_equal_across_devices] compares what the devices hold after
    [_pad_data], and that is the same gathered data on every device: the
    result is whether each gathered leaf is close to itself.  With a
    comparison that finds every array close to itself the function returns
    [True] whatever the devices hold, also when their data differ. *)
Theorem is_equal_across_devices_blind (allclose : sharded → sharded → bool)
    (device_count : nat) (data : pytree sharded) :
  Forall (λ x, length x = device_count) (tree_leaves data) →
  is_equal_across_devices allclose device_count data
  = forallb (λ x, let gathered :=
                    psum_sharded (imap (pad_local device_count) x) in
                  forallb (λ _, allclose gathered gathered)
                          (seq 1 (device_count - 1)))
            (tree_leaves data)
  ∧ ((∀ gathered, allclose gathered gathered = true) →
     is_equal_across_devices allclose device_count data = true).
Proof.
  intros Hshape.
  assert (Heq : is_equal_across_devices allclose device_count data
    = forallb (λ x, let gathered :=
                      psum_sharded (imap (pad_local device_count) x) in
                    forallb (λ _, allclose gathered gathered)
                            (seq 1 (device_count - 1)))
              (tree_leaves data)).
  { unfold is_equal_across_devices. rewrite tree_leaves_map.
    induction Hshape as [|x leaves Hx _ IH]; simpl; [done|].
    rewrite IH. f_equal. apply forallb_ext_In. intros i Hi.
    apply in_seq in Hi. by rewrite !pad_data_slice by lia. }
  split; [exact Heq|]. intros Hrefl. rewrite Heq.
  apply forallb_forall. intros x _. simpl.
  apply forallb_forall. intros i _. apply Hrefl.
Qed.

(** *** Exact zeros *)

Section ExactZero.
Hypothesis add_zero_r : ∀ e : E, add e zero = e.
Hypothesis add_zero_l : ∀ e : E, add zero e = e.

Lemma add_array_zeros_r (x y : array) :
  length x = length y → add_array x (zeros_like y) = x.
Proof.
  revert y. induction x as [|e x IH]; intros [|e' y] Hlen; simpl in *; try done.
  rewrite add_zero_r. f_equal. apply IH. lia.
Qed.

Lemma add_array_zeros_l (x y : array) :
  length x = length y → add_array (zeros_like y) x = x.
Proof.
  revert y. induction x as [|e x IH]; intros [|e' y] Hlen; simpl in *; try done.
  rewrite add_zero_l. f_equal. apply IH. lia.
Qed.

Lemma zeros_like_length (x y : array) :
  length x = length y → zeros_like x = zeros_like y.
Proof.
  revert y. induction x as [|e x IH]; intros [|e' y] Hlen; simpl in *; try done.
  f_equal. apply IH. lia.
Qed.

Lemma length_zeros_like (x : array) : length (zeros_like x) = length x.
Proof. unfold zeros_like. apply length_map. Qed.

Lemma zip_zeros_r (z : array) (pre : sharded) :
  Forall (λ a, length a = length z) pre →
  zip_with add_array pre (repeat (zeros_like z) (length pre)) = pre.
Proof.
  induction 1 as [|a pre Ha _ IH]; simpl; [done|].
  by rewrite IH, add_array_zeros_r.
Qed.

Lemma zip_zeros_zeros (z : array) (n : nat) :
  zip_with add_array (repeat (zeros_like z) n) (repeat (zeros_like z) n)
  = repeat (zeros_like z) n.
Proof.
  induction n as [|n IH]; simpl; [done|].
  rewrite IH, add_array_zeros_r; [done|]. by rewrite length_zeros_like.
Qed.

Lemma insert_repeat_middle {A : Type} (a x : A) (k n : nat) :
  <[k := x]> (repeat a (k + S n)) = repeat a k ++ x :: repeat a n.
Proof. induction k as [|k IH]; simpl; [done|]. by rewrite IH. Qed.

(** The sum of the padded contributions of the devices not yet added, on
    top of what the devices before them contributed. *)
Lemma fold_pad_local (z : array) (xs pre : sharded) :
  Forall (λ a, length a = length z) (pre ++ xs) →
  fold_left (zip_with add_array)
    (imap (λ i x, <[(length pre + i)%nat := x]>
                    (repeat (zeros_like x) (length pre + length xs))) xs)
    (pre ++ repeat (zeros_like z) (length xs))
  = pre ++ xs.
Proof.
  revert pre. induction xs as [|x xs IH]; intros pre Hlen; simpl; [done|].
  apply Forall_app in Hlen as [Hpre Hxs].
  apply Forall_cons in Hxs as [Hx Hxs].
  rewrite Nat.add_0_r.
  rewrite (zeros_like_length x z Hx), insert_repeat_middle.
  rewrite zip_with_app by (by rewrite repeat_length). simpl.
  rewrite zip_zeros_r, add_array_zeros_l, zip_zeros_zeros by done.
  replace (pre ++ x :: repeat (zeros_like z) (length xs))
    with ((pre ++ [x]) ++ repeat (zeros_like z) (length xs))
    by (by rewrite <- app_assoc).
  replace (pre ++ x :: xs) with ((pre ++ [x]) ++ xs) by (by rewrite <- app_assoc).
  rewrite <- (IH (pre ++ [x])).
  - f_equal. apply imap_ext. intros i y _. simpl.
    rewrite length_app. simpl.
    replace (length pre + 1 + i)%nat with (length pre + S i)%nat by lia.
    by replace (length pre + 1 + length xs)%nat
      with (length pre + S (length xs))%nat by lia.
  - rewrite <- app_assoc. simpl. apply Forall_app. split; [done|].
    by constructor.
Qed.

Lemma psum_pad_local (x : sharded) (len : nat) :
  Forall (λ a, length a = len) x →
  psum_sharded (imap (pad_local (length x)) x) = x.
Proof.
  intros Hrect. destruct x as [|x0 x]; [done|].
  simpl. unfold pad_local. simpl.
  apply Forall_cons in Hrect as [Hx0 Hrect].
  pose proof (fold_pad_local x0 x [x0]) as Hfold. simpl in Hfold.
  etrans; [|apply Hfold].
  - f_equal.
  - constructor; [done|]. eapply Forall_impl; [exact Hrect|].
    simpl. intros a Ha. congruence.
Qed.

(** X19. [merge_from_devices] returns [None] for [None]; for arrays of one
    shape, one for each device, whose zero is exact, it returns the
    devices' batches one after the other, in device order. *)
Theorem merge_from_devices_concat (x : sharded) (len : nat) :
  x ≠ [] →
  Forall (λ a, length a = len) x →
  merge_from_devices (length x) (Some x) = Some (List.concat x)
  ∧ merge_from_devices (length x) None = None.
Proof.
  intros Hx Hrect. split; [|done]. unfold merge_from_devices. f_equal. f_equal.
  rewrite pad_data_slice by (destruct x; [done | simpl; lia]).
  by eapply psum_pad_local.
Qed.
End ExactZero.
End GatherFacts.

(** ** Facts about the job names *)

Section JobNames.
Import Dispatch.

Lemma digit_value_char (d : N) : (d < 10)%N → digit_value (pretty_N_char d) = d.
Proof.
  intros Hd.
  assert (d = 0 ∨ d = 1 ∨ d = 2 ∨ d = 3 ∨ d = 4 ∨ d = 5 ∨ d = 6 ∨ d = 7
          ∨ d = 8 ∨ d = 9)%N as Hcases by lia.
  repeat (destruct Hcases as [->|Hcases]; [reflexivity|]). by subst.
Qed.

Lemma decimal_value_go (x : N) (s : string) (acc : N) :
  acc = 0%N →
  decimal_value acc (pretty_N_go x s) = decimal_value x s.
Proof.
  intros ->. revert s. induction (N.lt_wf_0 x) as [x _ IH]. intros s.
  assert (x = 0 ∨ 0 < x)%N as [->|Hx] by lia.
  { by rewrite pretty_N_go_0. }
  rewrite pretty_N_go_step by done. rewrite IH by (by apply N.div_lt).
  simpl. rewrite digit_value_char by (by apply N.mod_lt).
  f_equal. rewrite (N.div_mod x 10) at 3 by done. lia.
Qed.

Lemma decimal_value_pretty (n : N) : decimal_value 0 (pretty n) = n.
Proof.
  unfold pretty, pretty_N. destruct (decide (n = 0%N)) as [->|Hn]; [done|].
  by rewrite decimal_value_go.
Qed.

Lemma decimal_value_zeros (k : nat) (s : string) :
  decimal_value 0 (string_of_list_ascii (repeat "0"%char k) ++ s)
  = decimal_value 0 s.
Proof. induction k as [|k IH]; simpl; [done|]. exact IH. Qed.

Lemma decimal_value_zero_pad (width : nat) (n : N) :
  decimal_value 0 (zero_pad width (pretty n)) = n.
Proof. unfold zero_pad. by rewrite decimal_value_zeros, decimal_value_pretty. Qed.

Lemma pretty_N_no_dash (n : N) (s : string) : pretty n ≠ String "-" s.
Proof.
  unfold pretty, pretty_N. destruct (decide (n = 0%N)); [done|].
  apply (pretty_N_go_ne_dash n "" s). done.
Qed.

Lemma zero_pad_no_dash (width : nat) (n : N) (s : string) :
  zero_pad width (pretty n) ≠ String "-" s.
Proof.
  unfold zero_pad. destruct (width - String.length (pretty n))%nat; simpl.
  - apply pretty_N_no_dash.
  - discriminate.
Qed.

Lemma length_zero_pad (width : nat) (s : string) :
  String.length (zero_pad width s) = Nat.max width (String.length s).
Proof.
  unfold zero_pad.
  assert (Hz : ∀ k t, String.length (string_of_list_ascii (repeat "0"%char k) ++ t)
                      = (k + String.length t)%nat).
  { intros k t. induction k as [|k IH]; simpl; [done|]. by rewrite IH. }
  rewrite Hz. lia.
Qed.

Lemma dash_inj (x y : string) : ("-" ++ x = "-" ++ y)%string → x = y.
Proof. intros Heq. injection Heq as Heq. exact Heq. Qed.

Lemma zero_pad_ne_dash (width : nat) (n : N) (s : string) :
  zero_pad width (pretty n) ≠ ("-" ++ s)%string.
Proof. apply zero_pad_no_dash. Qed.

(** X17. Distinct indices get distinct job names, and a job name has at
    least four characters. *)
Theorem idx_to_job_name_distinct (i j : Z) :
  i ≠ j →
  idx_to_job_name i ≠ idx_to_job_name j
  ∧ (4 ≤ String.length (idx_to_job_name i))%nat.
Proof.
  intros Hij. split.
  - intros Heq. apply Hij. unfold idx_to_job_name in Heq.
    destruct (Z.ltb_spec i 0), (Z.ltb_spec j 0).
    + apply dash_inj in Heq.
      apply (f_equal (decimal_value 0)) in Heq.
      rewrite !decimal_value_zero_pad in Heq. lia.
    + symmetry in Heq. by apply zero_pad_ne_dash in Heq.
    + by apply zero_pad_ne_dash in Heq.
    + apply (f_equal (decimal_value 0)) in Heq.
      rewrite !decimal_value_zero_pad in Heq. lia.
  - unfold idx_to_job_name. destruct (i <? 0).
    + change (4 ≤ S (String.length (zero_pad 3 (pretty (Z.to_N (- i))))))%nat.
      rewrite length_zero_pad. lia.
    + rewrite length_zero_pad. lia.
Qed.
End JobNames.

(** ** Facts about [save_xyz_file] *)

Section XyzFacts.
Import Xyz.
Variable format_coordinate : float → string.

(** Python's list indexing: which indices are accepted, and what a
    negative one reads. *)
Lemma py_getitem_Ok {A : Type} (l : list A) (i : Z) :
  - len l ≤ i < len l → ∃ a, py_getitem l i = Ok a.
Proof.
  intros Hi. unfold py_getitem.
  set (j := if i <? 0 then i + len l else i).
  assert (0 ≤ j < len l) as Hj by (unfold j; destruct (Z.ltb_spec i 0); lia).
  destruct (Z.leb_spec 0 j); [|lia]. destruct (Z.ltb_spec j (len l)); [|lia].
  simpl. destruct (lookup_lt_is_Some_2 l (Z.to_nat j)) as [a Ha].
  { unfold len in *. lia. }
  exists a. by rewrite Ha.
Qed.

Lemma py_getitem_Raise {A : Type} (l : list A) (i : Z) :
  ¬ (- len l ≤ i < len l) →
  py_getitem l i = Raise (IndexError "list index out of range").
Proof.
  intros Hi. unfold py_getitem.
  set (j := if i <? 0 then i + len l else i).
  assert (¬ (0 ≤ j < len l)) as Hj by (unfold j; destruct (Z.ltb_spec i 0); lia).
  destruct (Z.leb_spec 0 j), (Z.ltb_spec j (len l)); simpl; try done. lia.
Qed.

Lemma py_getitem_negative {A : Type} (l : list A) (i : Z) :
  - len l ≤ i < 0 → py_getitem l i = py_getitem l (i + len l).
Proof.
  intros Hi. unfold py_getitem.
  destruct (Z.ltb_spec i 0); [|lia].
  by destruct (Z.ltb_spec (i + len l) 0); [lia|].
Qed.

Lemma atom_line_Ok (Z_ : Z) (R_ : position) :
  -35 ≤ Z_ ≤ 36 → ∃ line, atom_line format_coordinate Z_ R_ = Ok line.
Proof.
  intros HZ. unfold atom_line.
  destruct (py_getitem_Ok PERIODIC_TABLE (Z_ - 1)) as [symbol ->].
  { unfold len. simpl. lia. }
  destruct R_ as [[x y] z]. simpl. by eexists.
Qed.

Lemma atom_line_Raise (Z_ : Z) (R_ : position) :
  ¬ (-35 ≤ Z_ ≤ 36) →
  atom_line format_coordinate Z_ R_
  = Raise (IndexError "list index out of range").
Proof.
  intros HZ. unfold atom_line. rewrite py_getitem_Raise; [done|].
  unfold len. simpl. lia.
Qed.

(** X20. An atomic number that is zero or negative is not rejected: from
    [-35] to [0] it reads the table of symbols from its end, so the atom is
    written as the element [Z + 36] (0 as Kr). *)
Theorem atom_line_wraps (Z_ : Z) (R_ : position) :
  -35 ≤ Z_ ≤ 0 →
  atom_line format_coordinate Z_ R_
  = atom_line format_coordinate (Z_ + 36) R_.
Proof.
  intros HZ. unfold atom_line.
  rewrite py_getitem_negative by (unfold len; simpl; lia).
  by replace (Z_ + 36 - 1) with (Z_ - 1 + len PERIODIC_TABLE)
    by (unfold len; simpl; lia).
Qed.

Lemma write_atoms_outcome (atoms : list (Z * position)) (written : list string) :
  ∃ lines,
    match list_find (λ Z_, ¬ (-35 ≤ Z_ ≤ 36)) (atoms.*1) with
    | None =>
        write_atoms format_coordinate atoms written = (lines, Returned)
        ∧ length lines = (length written + length atoms)%nat
    | Some (k, _) =>
        write_atoms format_coordinate atoms written
        = (lines, Raised (IndexError "list index out of range"))
        ∧ length lines = (length written + k)%nat
    end.
Proof.
  revert written. induction atoms as [|[Z_ R_] atoms IH]; intros written; simpl.
  { exists written. split; [done | lia]. }
  destruct (decide (¬ (-35 ≤ Z_ ≤ 36))) as [Hbad|Hgood].
  - exists written. rewrite atom_line_Raise by done. split; [done | lia].
  - destruct (atom_line_Ok Z_ R_) as [line ->]; [lia|].
    destruct (IH (written ++ [line])) as [lines Hlines]. exists lines.
    simpl in Hlines.
    destruct (list_find _ _) as [[k Zk]|]; simpl;
      destruct Hlines as [-> Hn]; rewrite Hn, length_app; simpl;
      split; (done || lia).
Qed.

(** X21. [save_xyz_file] with lists of different lengths fails its
    [assert] and leaves the file alone.  With lists of one length it
    writes the two header lines and then one line for each atom, until an
    atomic number outside [-35..36]: there it raises [IndexError] and the
    file keeps the header and the lines of the atoms before; without such
    a number it returns and the file has [len(R) + 2] lines. *)
Theorem save_xyz_file_outcome (R : list position) (atomic_numbers : list Z)
    (comment : string) :
  (length R ≠ length atomic_numbers →
   save_xyz_file format_coordinate R atomic_numbers comment
   = (None, AssertionError))
  ∧ (length R = length atomic_numbers →
     ∃ lines,
       match list_find (λ Z_, ¬ (-35 ≤ Z_ ≤ 36)) atomic_numbers with
       | None =>
           save_xyz_file format_coordinate R atomic_numbers comment
           = (Some lines, Returned)
           ∧ length lines = (length R + 2)%nat
       | Some (k, _) =>
           save_xyz_file format_coordinate R atomic_numbers comment
           = (Some lines, Raised (IndexError "list index out of range"))
           ∧ length lines = (k + 2)%nat
       end).
Proof.
  unfold save_xyz_file. split; intros Hlen.
  - by destruct (Nat.eqb_spec (length R) (length atomic_numbers)).
  - destruct (Nat.eqb_spec (length R) (length atomic_numbers)); [|done]. simpl.
    destruct (write_atoms_outcome (zip atomic_numbers R)
                [pretty (length R) ++ newline; comment ++ newline]%string)
      as [lines Hlines].
    rewrite fst_zip in Hlines by lia. exists lines.
    destruct (list_find _ atomic_numbers) as [[k Zk]|];
      destruct Hlines as [-> Hn]; split; try done; rewrite Hn; simpl.
    + lia.
    + rewrite length_zip_with. lia.
Qed.
End XyzFacts.

(** ** The further facts on concrete inputs *)

Import MoreExamples.

Lemma split_example_params :
  split_params literal_compile literal_findall example_params ["embed"]
  = Ok (example_shared, example_unique).
Proof. by_evaluation. Qed.

Lemma split_params_partitions_witness :
  ∃ shared unique,
    split_params literal_compile literal_findall example_params ["embed"]
      = Ok (shared, unique)
    ∧ ¬ share_key shared unique
    ∧ (∀ m n v, leaf example_params m n = Some v
                ↔ leaf shared m n = Some v ∨ leaf unique m n = Some v)
    ∧ no_empty_module shared
    ∧ no_empty_module unique.
Proof.
  exact (split_params_partitions literal_compile literal_findall example_params
           ["embed"] ["embed"] eq_refl).
Defined.

Lemma split_params_idempotent_witness :
  split_params literal_compile literal_findall example_shared ["embed"]
  = Ok (example_shared, ∅)
  ∧ split_params literal_compile literal_findall example_unique ["embed"]
    = Ok (∅, example_unique).
Proof.
  exact (split_params_idempotent literal_compile literal_findall example_params
           example_shared example_unique ["embed"] split_example_params).
Defined.

Lemma split_params_number_of_params_witness :
  (get_number_of_params entries example_shared
   + get_number_of_params entries example_unique)%nat
  = get_number_of_params entries example_params.
Proof.
  exact (split_params_number_of_params literal_compile literal_findall entries
           example_params example_shared example_unique ["embed"]
           split_example_params).
Defined.

Lemma example_parts_share_no_key : ¬ share_key example_shared example_unique.
Proof.
  intros (m & n & [x Hx] & [y Hy]). unfold leaf in Hx, Hy.
  unfold example_shared, example_unique in *.
  destruct (decide (m = "embed")) as [->|Hm].
  - rewrite lookup_singleton_ne in Hy by done. discriminate.
  - rewrite lookup_singleton_ne in Hx by done. discriminate.
Qed.

Lemma merge_params_disjoint_comm_witness :
  merge_params example_shared example_unique
  = merge_params example_unique example_shared.
Proof.
  exact (merge_params_disjoint_comm example_shared example_unique
           example_parts_share_no_key).
Defined.

Lemma get_index_in_range_witness :
  0 ≤ 1 < len three_targets ∧ ∃ wf, py_getitem three_targets 1 = Ok wf.
Proof.
  apply (get_index_in_range 35 three_targets stddev_config 1).
  - repeat constructor; intros m Hm; vm_compute in Hm; injection Hm as <-;
      eexists; reflexivity.
  - by_evaluation.
Defined.

Lemma get_index_round_robin_rounds_witness :
  get_index (1 * len two_targets + 1) two_targets (scheduling "round_robin")
  = Ok 1.
Proof.
  apply (get_index_round_robin_rounds 1 1 two_targets (scheduling "round_robin")).
  - reflexivity.
  - unfold len. simpl. lia.
Defined.

Lemma get_index_nan_stddev_witness :
  get_index 35 nan_targets stddev_config = Ok (Z.of_nat 1).
Proof.
  apply (get_index_nan_stddev 35 nan_targets stddev_config
           [0.5; nan; 2.5]%float 1 nan).
  - reflexivity.
  - vm_compute. discriminate.
  - split; [vm_compute; reflexivity|].
    repeat constructor; vm_compute; discriminate.
  - repeat constructor; vm_compute; discriminate.
  - repeat constructor.
  - reflexivity.
  - reflexivity.
  - intros [|j] y Hj Hy; [|lia]. injection Hy as <-. reflexivity.
Defined.

Lemma get_index_missing_E_std_witness :
  get_index 35 unmeasured_targets stddev_config = Raise (KeyError "E_std").
Proof.
  apply (get_index_missing_E_std 35 unmeasured_targets stddev_config).
  - reflexivity.
  - vm_compute. discriminate.
  - split; [vm_compute; reflexivity|].
    repeat constructor; vm_compute; discriminate.
  - repeat constructor; vm_compute; discriminate.
  - right. left. reflexivity.
Defined.

(** Runs a closed computation and gives its value. *)
Ltac run_to_value :=
  lazymatch goal with
  | |- ∃ v, ?run = Ok v =>
      let r := eval vm_compute in run in
      lazymatch r with
      | Ok ?v => exists v; vm_cast_no_check (@eq_refl _ r)
      end
  end.



Lemma round_robin_run_completes :
  ∃ st, optimize_shared_state shared_example two_targets
          (optimization "round_robin" 1) None = Ok st.
Proof. run_to_value. Qed.

Lemma optimize_shared_epochs_in_order_witness :
  ∃ st,
    optimize_shared_state shared_example two_targets
      (optimization "round_robin" 1) None = Ok st
    ∧ two_targets ≠ []
    ∧ List.map ep_n_epoch (trace st)
      = py_range (n_epochs (optimization "round_robin" 1) * len two_targets)
    ∧ Forall2 (λ wf wf',
                 physical wf' = physical wf
                 ∧ loggers wf' = loggers wf
                 ∧ fixed_params wf' = replicate_fixed (fixed_params wf)
                 ∧ is_Some (mcmc_state wf')) two_targets (wfs st).
Proof.
  destruct round_robin_run_completes as [st Hrun]. exists st.
  split; [exact Hrun|].
  exact (optimize_shared_epochs_in_order shared_example two_targets
           (optimization "round_robin" 1) None st Hrun).
Defined.

Lemma optimize_shared_counters_witness :
  ∃ st,
    optimize_shared_state shared_example two_targets
      (optimization "round_robin" 1) None = Ok st
    ∧ ∃ wf', wfs st !! 0%nat = Some wf'
        ∧ n_opt_epochs wf'
          = n_opt_epochs (target unique_a [1; infinity]%float 0 0)
            + Z.of_nat (length (filter (λ rec, ep_index rec = 0%nat) (trace st)))
        ∧ last_epoch_optimized wf'
          = match last (filter (λ rec, ep_index rec = 0%nat) (trace st)) with
            | Some rec => ep_n_epoch rec
            | None =>
                last_epoch_optimized (target unique_a [1; infinity]%float 0 0)
            end.
Proof.
  destruct round_robin_run_completes as [st Hrun]. exists st.
  split; [exact Hrun|].
  exact (optimize_shared_counters shared_example two_targets
           (optimization "round_robin" 1) None st 0
           (target unique_a [1; infinity]%float 0 0) Hrun eq_refl).
Defined.

Lemma optimize_shared_round_robin_epochs_witness :
  ∃ st,
    optimize_shared_state shared_example two_targets
      (optimization "round_robin" 1) None = Ok st
    ∧ Forall2 (λ wf wf',
                 n_opt_epochs wf'
                 = n_opt_epochs wf + n_epochs (optimization "round_robin" 1))
              two_targets (wfs st).
Proof.
  destruct round_robin_run_completes as [st Hrun]. exists st.
  split; [exact Hrun|].
  apply (optimize_shared_round_robin_epochs (H := toy) shared_example
           two_targets (optimization "round_robin" 1) None st).
  - reflexivity.
  - vm_compute. discriminate.
  - exact Hrun.
Defined.

Lemma init_wfs_completes :
  ∃ r, init_wfs [tt; tt] (optimization "round_robin" 1) = Ok r.
Proof. run_to_value. Qed.

Lemma init_wfs_fresh_witness :
  ∃ fresh shared_params,
    init_wfs [tt; tt] (optimization "round_robin" 1) = Ok (fresh, shared_params)
    ∧ [tt; tt] ≠ []
    ∧ length fresh = length [tt; tt]
    ∧ ∀ (i : nat) p, [tt; tt] !! i = Some p →
        ∃ wf new_trainable_params new_shared_params,
          fresh !! i = Some wf
          ∧ build_log_psi_squared p = Ok (new_trainable_params, fixed_params wf)
          ∧ split_params re_compile re_findall new_trainable_params
              (shared_modules
                 (shared_optimization (optimization "round_robin" 1)))
            = Ok (new_shared_params, unique_trainable_params wf)
          ∧ (i = 0%nat → shared_params = new_shared_params)
          ∧ build_loggers i = Ok (loggers wf)
          ∧ physical wf = p
          ∧ mcmc_state wf = None
          ∧ clipping_params wf = None
          ∧ current_metrics wf = ∅
          ∧ n_opt_epochs wf = 0
          ∧ last_epoch_optimized wf = 0.
Proof.
  destruct init_wfs_completes as [[fresh shared_params] Hinit].
  exists fresh, shared_params. split; [exact Hinit|].
  exact (init_wfs_fresh [tt; tt] (optimization "round_robin" 1) fresh
           shared_params Hinit).
Defined.

Lemma is_equal_across_devices_blind_witness :
  [1; 2] ≠ [3; 4]
  ∧ is_equal_across_devices equal_arrays 2 two_device_data = true.
Proof.
  split; [discriminate|].
  apply (is_equal_across_devices_blind equal_arrays 2 two_device_data).
  - repeat constructor.
  - intros gathered. by apply bool_decide_eq_true.
Defined.

Lemma merge_from_devices_concat_witness :
  merge_from_devices (length [[1; 2]; [3; 4]]) (Some [[1; 2]; [3; 4]])
  = Some (List.concat [[1; 2]; [3; 4]])
  ∧ merge_from_devices (E := Z) (length [[1; 2]; [3; 4]]) None = None.
Proof.
  apply (merge_from_devices_concat (E := Z) (H := Z_dtype) Z.add_0_r Z.add_0_l
           [[1; 2]; [3; 4]] 2).
  - discriminate.
  - repeat constructor.
Defined.

Lemma idx_to_job_name_distinct_witness :
  Dispatch.idx_to_job_name 0 ≠ Dispatch.idx_to_job_name 1
  ∧ (4 ≤ String.length (Dispatch.idx_to_job_name 0))%nat.
Proof. apply (idx_to_job_name_distinct 0 1). discriminate. Defined.

Lemma atom_line_wraps_witness :
  Xyz.atom_line coordinate_sign 0 (0, 1, -1)%float
  = Xyz.atom_line coordinate_sign (0 + 36) (0, 1, -1)%float.
Proof. apply (atom_line_wraps coordinate_sign 0 (0, 1, -1)%float). lia. Defined.
